(** * LatinIME suggestion core: scoring state and suggest driver

    A shallow embedding of
      native/jni/src/suggest/core/dicnode/dic_node_state_scoring.h
      native/jni/src/suggest/core/suggest.cpp
    together with the properties of the natural-language specification
    that concern them.

    C++ [float] is IEEE-754 binary32; it is modelled by the Standard
    Library's executable specification of floating-point numbers
    ([SpecFloat]) at precision 24 and maximal exponent 128.  [int16_t]
    counters are integers with their wrap-around written out. *)

From Stdlib Require Import ZArith Zpower Lia Bool List.
From Stdlib Require Import Floats.SpecFloat.
From stdpp Require Import base list.
Import ListNotations.

Local Open Scope Z_scope.

(** ** IEEE-754 binary32 *)

Module Binary32.

Definition prec : Z := 24.
Definition emax : Z := 128.

Definition float : Type := spec_float.

(** Well-formedness of a value of type [float]: the mantissa and
    exponent of a finite number are the canonical ones of binary32. *)
Definition valid (x : float) : bool := valid_binary prec emax x.

Definition add (x y : float) : float := SFadd prec emax x y.
Definition mul (x y : float) : float := SFmul prec emax x y.
Definition div (x y : float) : float := SFdiv prec emax x y.

(** The comparison operators of C++; every comparison with a NaN is
    false. *)
Definition ltb (x y : float) : bool := SFltb x y.
Definition leb (x y : float) : bool := SFleb x y.
Definition gtb (x y : float) : bool := SFltb y x.
Definition geb (x y : float) : bool := SFleb y x.

(** [static_cast<float>(z)] for an integer [z]: round to nearest, ties
    to even. *)
Definition of_int (z : Z) : float := binary_normalize prec emax z 0 false.

(** The literals [0.0f] and [1.0f]. *)
Definition zero : float := S754_zero false.
Definition one : float := S754_finite false 8388608 (-23).

(** [x >= 0.0f] for a well-formed [x]. *)
Definition nonneg (x : float) : bool := valid x && geb x zero.

(** The least exponent of binary32, and the value [m * 2^e] of a
    mantissa and an exponent in units of [2^emin]. *)
Definition emin : Z := -149.
Definition scaled (m e : Z) : Z := m * 2 ^ (e - emin).

End Binary32.

Abbreviation float := Binary32.float.

(** ** Fixed-width integers *)

Definition INT16_MAX : Z := 32767.
Definition INT16_MIN : Z := -32768.

(** Conversion of an [int] to [int16_t]: reduction modulo 2^16 into
    [INT16_MIN .. INT16_MAX]. *)
Definition wrap16 (z : Z) : Z := (z + 32768) mod 65536 - 32768.

Definition in_int16 (z : Z) : Prop := INT16_MIN <= z <= INT16_MAX.

(** Modelled from the spec: the enumeration [DoubleLetterLevel] is
    declared in defines.h; its three values are the ones that the switch
    of [setDoubleLetterLevel] names (NONE, WEAK and STRONG in the
    specification's words). *)
Inductive DoubleLetterLevel : Type :=
| NOT_A_DOUBLE_LETTER
| A_DOUBLE_LETTER
| A_STRONG_DOUBLE_LETTER.

(** The order NONE < WEAK < STRONG of the specification. *)
Definition levelRank (l : DoubleLetterLevel) : nat :=
  match l with
  | NOT_A_DOUBLE_LETTER => 0%nat
  | A_DOUBLE_LETTER => 1%nat
  | A_STRONG_DOUBLE_LETTER => 2%nat
  end.

(** ** dic_node_state_scoring.h *)

Record DicNodeStateScoring : Type := mkScoring {
  mDoubleLetterLevel : DoubleLetterLevel;
  mEditCorrectionCount : Z;          (* int16_t *)
  mProximityCorrectionCount : Z;     (* int16_t *)
  mNormalizedCompoundDistance : float;
  mSpatialDistance : float;
  mLanguageDistance : float;
  mTotalPrevWordsLanguageCost : float;
  mRawLength : float
}.

Module Scoring.

(** The constructor and [init()]. *)
Definition init : DicNodeStateScoring :=
  {| mDoubleLetterLevel := NOT_A_DOUBLE_LETTER;
     mEditCorrectionCount := 0;
     mProximityCorrectionCount := 0;
     mNormalizedCompoundDistance := Binary32.zero;
     mSpatialDistance := Binary32.zero;
     mLanguageDistance := Binary32.zero;
     mTotalPrevWordsLanguageCost := Binary32.zero;
     mRawLength := Binary32.zero |}.

(** [init(scoring)], the initialisation from another scoring state: a
    field-by-field copy. *)
Definition initFrom (scoring : DicNodeStateScoring) : DicNodeStateScoring :=
  {| mDoubleLetterLevel := mDoubleLetterLevel scoring;
     mEditCorrectionCount := mEditCorrectionCount scoring;
     mProximityCorrectionCount := mProximityCorrectionCount scoring;
     mNormalizedCompoundDistance := mNormalizedCompoundDistance scoring;
     mSpatialDistance := mSpatialDistance scoring;
     mLanguageDistance := mLanguageDistance scoring;
     mTotalPrevWordsLanguageCost := mTotalPrevWordsLanguageCost scoring;
     mRawLength := mRawLength scoring |}.

Definition setTotalPrevWordsLanguageCost
    (s : DicNodeStateScoring) (totalPrevWordsLanguageCost : float)
  : DicNodeStateScoring :=
  {| mDoubleLetterLevel := mDoubleLetterLevel s;
     mEditCorrectionCount := mEditCorrectionCount s;
     mProximityCorrectionCount := mProximityCorrectionCount s;
     mNormalizedCompoundDistance := mNormalizedCompoundDistance s;
     mSpatialDistance := mSpatialDistance s;
     mLanguageDistance := mLanguageDistance s;
     mTotalPrevWordsLanguageCost := totalPrevWordsLanguageCost;
     mRawLength := mRawLength s |}.

(** [inputSize] is a parameter of the source function that its body
    never reads. *)
Definition addDistance (s : DicNodeStateScoring)
    (spatialDistance languageDistance : float) (doNormalization : bool)
    (inputSize totalInputIndex : Z) : DicNodeStateScoring :=
  let spatial := Binary32.add (mSpatialDistance s) spatialDistance in
  let language := Binary32.add (mLanguageDistance s) languageDistance in
  let normalized :=
    if negb doNormalization
    then Binary32.add spatial language
    else Binary32.div (Binary32.add spatial language)
                      (Binary32.of_int (Z.max 1 totalInputIndex)) in
  {| mDoubleLetterLevel := mDoubleLetterLevel s;
     mEditCorrectionCount := mEditCorrectionCount s;
     mProximityCorrectionCount := mProximityCorrectionCount s;
     mNormalizedCompoundDistance := normalized;
     mSpatialDistance := spatial;
     mLanguageDistance := language;
     mTotalPrevWordsLanguageCost := mTotalPrevWordsLanguageCost s;
     mRawLength := mRawLength s |}.

Definition incrEditCorrectionCount (s : DicNodeStateScoring)
  : DicNodeStateScoring :=
  {| mDoubleLetterLevel := mDoubleLetterLevel s;
     mEditCorrectionCount := wrap16 (mEditCorrectionCount s + 1);
     mProximityCorrectionCount := mProximityCorrectionCount s;
     mNormalizedCompoundDistance := mNormalizedCompoundDistance s;
     mSpatialDistance := mSpatialDistance s;
     mLanguageDistance := mLanguageDistance s;
     mTotalPrevWordsLanguageCost := mTotalPrevWordsLanguageCost s;
     mRawLength := mRawLength s |}.

Definition incrProximityCorrectionCount (s : DicNodeStateScoring)
  : DicNodeStateScoring :=
  {| mDoubleLetterLevel := mDoubleLetterLevel s;
     mEditCorrectionCount := mEditCorrectionCount s;
     mProximityCorrectionCount := wrap16 (mProximityCorrectionCount s + 1);
     mNormalizedCompoundDistance := mNormalizedCompoundDistance s;
     mSpatialDistance := mSpatialDistance s;
     mLanguageDistance := mLanguageDistance s;
     mTotalPrevWordsLanguageCost := mTotalPrevWordsLanguageCost s;
     mRawLength := mRawLength s |}.

Definition addCost (s : DicNodeStateScoring)
    (spatialCost languageCost : float) (doNormalization : bool)
    (inputSize totalInputIndex : Z)
    (isEditCorrection isProximityCorrection : bool) : DicNodeStateScoring :=
  let s1 := addDistance s spatialCost languageCost doNormalization
              inputSize totalInputIndex in
  let s2 := if isEditCorrection then incrEditCorrectionCount s1 else s1 in
  let s3 := if isProximityCorrection
            then incrProximityCorrectionCount s2 else s2 in
  if Binary32.gtb languageCost Binary32.zero
  then setTotalPrevWordsLanguageCost s3
         (Binary32.add (mTotalPrevWordsLanguageCost s3) languageCost)
  else s3.

Definition addRawLength (s : DicNodeStateScoring) (rawLength : float)
  : DicNodeStateScoring :=
  {| mDoubleLetterLevel := mDoubleLetterLevel s;
     mEditCorrectionCount := mEditCorrectionCount s;
     mProximityCorrectionCount := mProximityCorrectionCount s;
     mNormalizedCompoundDistance := mNormalizedCompoundDistance s;
     mSpatialDistance := mSpatialDistance s;
     mLanguageDistance := mLanguageDistance s;
     mTotalPrevWordsLanguageCost := mTotalPrevWordsLanguageCost s;
     mRawLength := Binary32.add (mRawLength s) rawLength |}.

(** [getCompoundDistance(languageWeight)] and [getCompoundDistance()]. *)
Definition getCompoundDistanceWeighted (s : DicNodeStateScoring)
    (languageWeight : float) : float :=
  Binary32.add (mSpatialDistance s)
               (Binary32.mul (mLanguageDistance s) languageWeight).

Definition getCompoundDistance (s : DicNodeStateScoring) : float :=
  getCompoundDistanceWeighted s Binary32.one.

Definition getNormalizedCompoundDistance (s : DicNodeStateScoring) : float :=
  mNormalizedCompoundDistance s.

Definition setDoubleLetterLevel (s : DicNodeStateScoring)
    (doubleLetterLevel : DoubleLetterLevel) : DicNodeStateScoring :=
  let set l :=
    {| mDoubleLetterLevel := l;
       mEditCorrectionCount := mEditCorrectionCount s;
       mProximityCorrectionCount := mProximityCorrectionCount s;
       mNormalizedCompoundDistance := mNormalizedCompoundDistance s;
       mSpatialDistance := mSpatialDistance s;
       mLanguageDistance := mLanguageDistance s;
       mTotalPrevWordsLanguageCost := mTotalPrevWordsLanguageCost s;
       mRawLength := mRawLength s |} in
  match doubleLetterLevel with
  | NOT_A_DOUBLE_LETTER => s
  | A_DOUBLE_LETTER =>
      match mDoubleLetterLevel s with
      | A_STRONG_DOUBLE_LETTER => s
      | _ => set doubleLetterLevel
      end
  | A_STRONG_DOUBLE_LETTER => set doubleLetterLevel
  end.

(** The invariant of the data model: the accumulated distances are
    non-negative numbers. *)
Definition distancesNonNegative (s : DicNodeStateScoring) : bool :=
  Binary32.nonneg (mSpatialDistance s)
  && Binary32.nonneg (mLanguageDistance s).

(** The arguments of one call of [addCost], and the call. *)
Record AddCostCall : Type := mkAddCostCall {
  acSpatialCost : float;
  acLanguageCost : float;
  acDoNormalization : bool;
  acInputSize : Z;
  acTotalInputIndex : Z;
  acIsEditCorrection : bool;
  acIsProximityCorrection : bool
}.

Definition callAddCost (s : DicNodeStateScoring) (c : AddCostCall)
  : DicNodeStateScoring :=
  addCost s (acSpatialCost c) (acLanguageCost c) (acDoNormalization c)
    (acInputSize c) (acTotalInputIndex c) (acIsEditCorrection c)
    (acIsProximityCorrection c).

(** [spatialCost >= 0.0f && languageCost >= 0.0f]. *)
Definition nonNegativeCosts (c : AddCostCall) : bool :=
  Binary32.nonneg (acSpatialCost c) && Binary32.nonneg (acLanguageCost c).

End Scoring.

(** ** Collaborators of the driver

    suggest.cpp reaches the dictionary node, the traverse session with its
    priority-queue cache, and the traversal, scoring and weighting policies
    through their interfaces only; their implementations are in other
    files.  Each interface is a class of operations here, and the driver
    is written once, over any implementation. *)

(** The correction events that suggest.cpp hands to the weighting. *)
Inductive CorrectionType : Type :=
| CT_MATCH
| CT_ADDITIONAL_PROXIMITY
| CT_SUBSTITUTION
| CT_OMISSION
| CT_INSERTION
| CT_TRANSPOSITION
| CT_COMPLETION
| CT_TERMINAL
| CT_NEW_WORD
| CT_SPACE_SUBSTITUTION.

Inductive ProximityType : Type :=
| MATCH_CHAR
| PROXIMITY_CHAR
| ADDITIONAL_PROXIMITY_CHAR
| SUBSTITUTION_CHAR
| UNRELATED_CHAR.

(** The four output arrays of [getSuggestions]. *)
Record Output : Type := mkOutput {
  outWords : list Z;
  frequencies : list Z;
  outputIndices : list Z;
  outputTypes : list Z
}.

(** [TerminalAttributes(dict, flags, attributesPos)]. *)
Record TerminalAttributes : Type := mkTerminalAttributes {
  taFlags : Z;
  taPos : Z
}.

(** The touch input handed to [getSuggestions]. *)
Record TouchInput : Type := mkTouchInput {
  inputXs : list Z;
  inputYs : list Z;
  times : list Z;
  pointerIds : list Z;
  inputCodePoints : list Z;
  tiInputSize : Z
}.

(** The part of [DicTraverseSession] that suggest.cpp reads and writes. *)
Record DicTraverseSession (Cache : Type) : Type := mkSession {
  proximityInfoState0Used : bool;   (* getProximityInfoState(0)->isUsed() *)
  sessionInputSize : Z;             (* getInputSize() *)
  continuousSuggestionPossible : bool;
  partiallyCommited : bool;
  prevWordPos : Z;
  dicRootPos : Z;
  dicTraverseCache : Cache
}.

Arguments mkSession {Cache}.
Arguments proximityInfoState0Used {Cache}.
Arguments sessionInputSize {Cache}.
Arguments continuousSuggestionPossible {Cache}.
Arguments partiallyCommited {Cache}.
Arguments prevWordPos {Cache}.
Arguments dicRootPos {Cache}.
Arguments dicTraverseCache {Cache}.

(** [DicNode] (dic_node.h). *)
Class DicNodeClass (DicNode : Type) : Type := {
  scoringState : DicNode -> DicNodeStateScoring;
  isTotalInputSizeExceedingLimit : DicNode -> bool;
  getInputIndex : DicNode -> Z -> Z;
  isCompletion : DicNode -> Z -> bool;
  setCached : DicNode -> DicNode;
  isTerminalWordNode : DicNode -> bool;
  shouldBeFilterdBySafetyNetForBigram : DicNode -> bool;
  hasMultipleWords : DicNode -> bool;
  hasChildren : DicNode -> bool;
  isZeroCostOmission : DicNode -> bool;
  getProbability : DicNode -> Z;
  getFlags : DicNode -> Z;
  getAttributesPos : DicNode -> Z;
  getPrevWordNodePos : DicNode -> Z;
  initByCopy : DicNode -> DicNode;
  (* outputResult(dest): the word, written at an offset of the buffer *)
  outputResult : DicNode -> Z -> list Z -> list Z;
  outputSpacePositionsResult : DicNode -> list Z -> list Z
}.

(** [DicNodesCache] (the priority-queue cache of the session). *)
Class DicNodesCacheClass (DicNode Cache : Type) : Type := {
  activeSize : Cache -> Z;
  terminalSize : Cache -> Z;
  popActive : Cache -> DicNode * Cache;
  popTerminal : Cache -> DicNode * Cache;
  copyPushActive : DicNode -> Cache -> Cache;
  copyPushNextActive : DicNode -> Cache -> Cache;
  copyPushTerminal : DicNode -> Cache -> Cache;
  copyPushContinue : DicNode -> Cache -> Cache;
  advanceActiveDicNodes : Cache -> Cache;
  advanceInputIndex : Z -> Cache -> Cache;
  continueSearch : Cache -> Cache;
  setCommitPoint : Z -> Cache -> DicNode * Cache;
  updateLastCachedInputIndex : Cache -> Cache;
  isLookAheadCorrectionInputIndex : Cache -> Z -> bool
}.

(** [DicNodeUtils], and the methods of [DicTraverseSession]
    (dic_traverse_session.h) that work on the whole session:
    [setupForGetSuggestions] and [resetCache(maxCacheSize, maxResults)].
    Both take the session and give the session back; nothing is assumed
    of what they change in it. *)
Class DicNodeUtilsClass (DicNode Cache : Type) : Type := {
  initAsRoot : Z -> Z -> DicNode;
  initAsRootWithPreviousWord : Z -> DicNode -> DicNode;
  utilsInitByCopy : DicNode -> DicNode;
  getAllChildDicNodes : DicNode -> list DicNode;
  getProximityChildDicNodes :
    DicNode -> DicTraverseSession Cache -> Z -> bool -> list DicNode;
  setupForGetSuggestions :
    DicTraverseSession Cache -> TouchInput -> float -> Z ->
    DicTraverseSession Cache;
  resetCache : Z -> Z -> DicTraverseSession Cache -> DicTraverseSession Cache
}.

(** The [TRAVERSAL] policy. *)
Class TraversalClass (DicNode Cache : Type) : Type := {
  getMaxSpatialDistance : float;
  getMaxPointerCount : Z;
  getMaxCacheSize : Z;
  getDefaultExpandDicNodeSize : Z;
  allowPartialCommit : bool;
  needsToTraverseAllUserInput : bool;
  shouldDepthLevelCache : DicTraverseSession Cache -> bool;
  shouldNodeLevelCache : DicTraverseSession Cache -> DicNode -> bool;
  canDoLookAheadCorrection : DicTraverseSession Cache -> DicNode -> bool;
  allowsErrorCorrections : DicNode -> bool;
  isSpaceSubstitutionTerminal : DicTraverseSession Cache -> DicNode -> bool;
  isSpaceOmissionTerminal : DicTraverseSession Cache -> DicNode -> bool;
  isOmission : DicTraverseSession Cache -> DicNode -> DicNode -> bool;
  isPossibleOmissionChildNode :
    DicTraverseSession Cache -> DicNode -> DicNode -> bool;
  getProximityType :
    DicTraverseSession Cache -> DicNode -> DicNode -> ProximityType;
  isGoodToTraverseNextWord : DicNode -> bool;
  sameAsTyped : DicTraverseSession Cache -> DicNode -> bool
}.

(** The [SCORING] policy, with [TerminalAttributes::isBlacklistedOrNotAWord]
    and [ShortcutUtils::outputShortcuts]. *)
Class ScoringClass (DicNode Cache : Type) : Type := {
  getAdjustedLanguageWeight :
    DicTraverseSession Cache -> list DicNode -> Z -> float;
  getMostProbableString :
    DicTraverseSession Cache -> Z -> float -> Output -> bool * Output;
  searchWordWithDoubleLetter :
    list DicNode -> Z -> Z * DoubleLetterLevel -> Z * DoubleLetterLevel;
  getDoubleLetterDemotionDistanceCost : Z -> Z -> DoubleLetterLevel -> float;
  calculateFinalScore : float -> Z -> bool -> Z;
  doesAutoCorrectValidWord : bool;
  safetyNetForMostProbableString : Z -> Z -> Output -> Output;
  isBlacklistedOrNotAWord : TerminalAttributes -> bool;
  outputShortcuts : TerminalAttributes -> Z -> Z -> Output -> bool -> Z * Output
}.

(** The [WEIGHTING] policy, through [Weighting::addCostAndForwardInputIndex]
    (event, session, parent or null, node, whether the bigram cache of the
    session is passed); the result is the node after the call. *)
Class WeightingClass (DicNode Cache : Type) : Type := {
  addCostAndForwardInputIndex :
    CorrectionType -> DicTraverseSession Cache -> option DicNode -> DicNode ->
    bool -> DicNode
}.

(** Constants of defines.h and dictionary.h. *)
Class Defines : Type := {
  MAX_RESULTS : Z;
  MAX_WORD_LENGTH : Z;
  MAX_VALUE_FOR_WEIGHTING : Z;
  S_INT_MIN : Z;
  KIND_CORRECTION : Z
}.

(** ** suggest.cpp

    The session is passed from call to call in place of the pointer that
    the source mutates.  The profiling macros and the branches under
    [DEBUG_CACHE] and [DEBUG_GEO_FULL], which only log, are left out, and
    so is [DicNode::managedDelete], which returns a node to its pool and
    changes none of the values below. *)

Module Suggest.

Definition LOOKAHEAD_DIC_NODES_CACHE_SIZE : Z := 25.
Definition MIN_LEN_FOR_MULTI_WORD_AUTOCORRECT : Z := 16.
Definition MIN_CONTINUOUS_SUGGESTION_INPUT_SIZE : Z := 2.

Definition CORRECT_SPACE_OMISSION : bool := true.
Definition CORRECT_TRANSPOSITION : bool := true.
Definition CORRECT_INSERTION : bool := true.
Definition CORRECT_OMISSION_G : bool := true.

(** What the emission loop carries from one terminal to the next.
    [scoreCalls] is a ghost record of the calls of
    [SCORING->calculateFinalScore], oldest first, with their three
    arguments. *)
Record EmitState : Type := mkEmitState {
  outputWordIndex : Z;
  maxScore : Z;
  emitted : Output;
  scoreCalls : list (float * Z * bool)
}.

Section Driver.

Context {DicNode Cache : Type}.
Context {DN : DicNodeClass DicNode}.
Context {DC : DicNodesCacheClass DicNode Cache}.
Context {DU : DicNodeUtilsClass DicNode Cache}.
Context {TRAVERSAL : TraversalClass DicNode Cache}.
Context {SCORING : ScoringClass DicNode Cache}.
Context {WEIGHTING : WeightingClass DicNode Cache}.
Context {DEFS : Defines}.

Local Abbreviation Session := (DicTraverseSession Cache).

(** [traverseSession->getDicTraverseCache()->op(...)] for an operation
    that changes the cache. *)
Definition onCache (f : Cache -> Cache) (s : Session) : Session :=
  mkSession (proximityInfoState0Used s) (sessionInputSize s)
    (continuousSuggestionPossible s) (partiallyCommited s) (prevWordPos s)
    (dicRootPos s) (f (dicTraverseCache s)).

Definition setPrevWordPos (pos : Z) (s : Session) : Session :=
  mkSession (proximityInfoState0Used s) (sessionInputSize s)
    (continuousSuggestionPossible s) (partiallyCommited s) pos
    (dicRootPos s) (dicTraverseCache s).

Definition setPartiallyCommited (s : Session) : Session :=
  mkSession (proximityInfoState0Used s) (sessionInputSize s)
    (continuousSuggestionPossible s) true (prevWordPos s)
    (dicRootPos s) (dicTraverseCache s).

(** [DicNode::getCompoundDistance()] is the compound distance of the
    node's scoring state. *)
Definition getCompoundDistance (dicNode : DicNode) : float :=
  Scoring.getCompoundDistance (scoringState dicNode).

Definition getCompoundDistanceWeighted (dicNode : DicNode)
    (languageWeight : float) : float :=
  Scoring.getCompoundDistanceWeighted (scoringState dicNode) languageWeight.

Definition maxValueForWeighting : float :=
  Binary32.of_int MAX_VALUE_FOR_WEIGHTING.

(** *** initializeSearch *)

Definition initializeSearch (traverseSession : Session) (commitPoint : Z)
  : Session :=
  if negb (proximityInfoState0Used traverseSession) then traverseSession
  else
    let commitPoint := if allowPartialCommit then 0 else commitPoint in
    if (MIN_CONTINUOUS_SUGGESTION_INPUT_SIZE <? sessionInputSize traverseSession)
       && continuousSuggestionPossible traverseSession
    then
      if commitPoint =? 0 then
        onCache continueSearch traverseSession
      else
        let '(topDicNode, cache) :=
          setCommitPoint commitPoint (dicTraverseCache traverseSession) in
        let s1 := onCache (fun _ => cache) traverseSession in
        let s2 := setPrevWordPos (getPrevWordNodePos topDicNode) s1 in
        let s3 := onCache continueSearch s2 in
        setPartiallyCommited s3
    else
      let s1 := resetCache getMaxCacheSize MAX_RESULTS traverseSession in
      let rootNode := initAsRoot (dicRootPos s1) (prevWordPos s1) in
      onCache (copyPushActive rootNode) s1.

(** *** Node operators *)

Definition weightChildNode (traverseSession : Session) (dicNode : DicNode)
  : DicNode :=
  let inputSize := sessionInputSize traverseSession in
  if isCompletion dicNode inputSize
  then addCostAndForwardInputIndex CT_COMPLETION traverseSession None
         dicNode false
  else addCostAndForwardInputIndex CT_MATCH traverseSession None
         dicNode false.

Definition createNextWordDicNode (traverseSession : Session)
    (dicNode : DicNode) (spaceSubstitution : bool) : Session :=
  if negb (isGoodToTraverseNextWord dicNode) then traverseSession
  else
    let newDicNode :=
      initAsRootWithPreviousWord (dicRootPos traverseSession) dicNode in
    let newDicNode :=
      addCostAndForwardInputIndex CT_NEW_WORD traverseSession (Some dicNode)
        newDicNode true in
    let newDicNode :=
      if spaceSubstitution
      then addCostAndForwardInputIndex CT_SPACE_SUBSTITUTION traverseSession
             None newDicNode false
      else newDicNode in
    onCache (copyPushNextActive newDicNode) traverseSession.

Definition processTerminalDicNode (traverseSession : Session)
    (dicNode : DicNode) : Session :=
  if Binary32.geb (getCompoundDistance dicNode) maxValueForWeighting
  then traverseSession
  else if negb (isTerminalWordNode dicNode) then traverseSession
  else if needsToTraverseAllUserInput
          && (getInputIndex dicNode 0 <? sessionInputSize traverseSession)
  then traverseSession
  else if shouldBeFilterdBySafetyNetForBigram dicNode then traverseSession
  else
    let terminalDicNode := utilsInitByCopy dicNode in
    let terminalDicNode :=
      addCostAndForwardInputIndex CT_TERMINAL traverseSession None
        terminalDicNode true in
    onCache (copyPushTerminal terminalDicNode) traverseSession.

Definition processExpandedDicNode (traverseSession : Session)
    (dicNode : DicNode) : Session :=
  let s1 := processTerminalDicNode traverseSession dicNode in
  if Binary32.ltb (getCompoundDistance dicNode) maxValueForWeighting then
    let s2 :=
      if isSpaceOmissionTerminal s1 dicNode
      then createNextWordDicNode s1 dicNode false
      else s1 in
    let allowsLookAhead :=
      negb (hasMultipleWords dicNode
            && isCompletion dicNode (sessionInputSize s2)) in
    if hasChildren dicNode && allowsLookAhead
    then onCache (copyPushNextActive dicNode) s2
    else s2
  else s1.

Definition processDicNodeAsMatch (traverseSession : Session)
    (childDicNode : DicNode) : Session :=
  let childDicNode := weightChildNode traverseSession childDicNode in
  processExpandedDicNode traverseSession childDicNode.

Definition processDicNodeAsAdditionalProximityChar
    (traverseSession : Session) (dicNode childDicNode : DicNode) : Session :=
  let childDicNode :=
    addCostAndForwardInputIndex CT_ADDITIONAL_PROXIMITY traverseSession
      (Some dicNode) childDicNode false in
  let childDicNode := weightChildNode traverseSession childDicNode in
  processExpandedDicNode traverseSession childDicNode.

Definition processDicNodeAsSubstitution
    (traverseSession : Session) (dicNode childDicNode : DicNode) : Session :=
  let childDicNode :=
    addCostAndForwardInputIndex CT_SUBSTITUTION traverseSession
      (Some dicNode) childDicNode false in
  let childDicNode := weightChildNode traverseSession childDicNode in
  processExpandedDicNode traverseSession childDicNode.

Definition processDicNodeAsOmission (traverseSession : Session)
    (dicNode : DicNode) : Session :=
  let isZeroCost := isZeroCostOmission dicNode in
  let childDicNodes := getAllChildDicNodes dicNode in
  fold_left
    (fun (s : Session) (childDicNode : DicNode) =>
       let childDicNode :=
         if negb isZeroCost
         then addCostAndForwardInputIndex CT_OMISSION s (Some dicNode)
                childDicNode false
         else childDicNode in
       let childDicNode := weightChildNode s childDicNode in
       if negb (isPossibleOmissionChildNode s dicNode childDicNode)
       then s
       else processExpandedDicNode s childDicNode)
    childDicNodes traverseSession.

Definition processDicNodeAsInsertion (traverseSession : Session)
    (dicNode : DicNode) : Session :=
  let pointIndex := wrap16 (getInputIndex dicNode 0) in
  let childDicNodes :=
    getProximityChildDicNodes dicNode traverseSession (pointIndex + 1) true in
  fold_left
    (fun (s : Session) (childDicNode : DicNode) =>
       let childDicNode :=
         addCostAndForwardInputIndex CT_INSERTION s (Some dicNode)
           childDicNode false in
       processExpandedDicNode s childDicNode)
    childDicNodes traverseSession.

Definition processDicNodeAsTransposition (traverseSession : Session)
    (dicNode : DicNode) : Session :=
  let pointIndex := wrap16 (getInputIndex dicNode 0) in
  let childDicNodes1 :=
    getProximityChildDicNodes dicNode traverseSession (pointIndex + 1)
      false in
  fold_left
    (fun (s : Session) (child1 : DicNode) =>
       if hasChildren child1 then
         let childDicNodes2 :=
           getProximityChildDicNodes child1 s pointIndex false in
         fold_left
           (fun (s' : Session) (childDicNode2 : DicNode) =>
              let childDicNode2 :=
                addCostAndForwardInputIndex CT_TRANSPOSITION s' (Some child1)
                  childDicNode2 false in
              processExpandedDicNode s' childDicNode2)
           childDicNodes2 s
       else s)
    childDicNodes1 traverseSession.

(** *** expandCurrentDicNodes *)

(** One child of the popped node, in the branch without look-ahead
    correction: the body of the [for] loop over [childDicNodes]. *)
Definition expandChild (isCompletionNode allowsCorrections : bool)
    (dicNode : DicNode) (traverseSession : Session) (childDicNode : DicNode)
  : Session :=
  if isCompletionNode then processDicNodeAsMatch traverseSession childDicNode
  else
    let s1 :=
      if allowsCorrections && isOmission traverseSession dicNode childDicNode
      then processDicNodeAsOmission traverseSession (initByCopy childDicNode)
      else traverseSession in
    match getProximityType s1 dicNode childDicNode with
    | MATCH_CHAR | PROXIMITY_CHAR => processDicNodeAsMatch s1 childDicNode
    | ADDITIONAL_PROXIMITY_CHAR =>
        if allowsCorrections
        then processDicNodeAsAdditionalProximityChar s1 dicNode childDicNode
        else s1
    | SUBSTITUTION_CHAR =>
        if allowsCorrections
        then processDicNodeAsSubstitution s1 dicNode childDicNode
        else s1
    | UNRELATED_CHAR => s1
    end.

(** The body of the [while] loop after the pop and the limit check. *)
Definition expandDicNode (shouldDepthLevelCacheNow : bool)
    (traverseSession : Session) (dicNode : DicNode) : Session :=
  let inputSize := sessionInputSize traverseSession in
  let point0Index := getInputIndex dicNode 0 in
  let canDoLookAhead := canDoLookAheadCorrection traverseSession dicNode in
  let isLookAheadCorrection :=
    canDoLookAhead
    && isLookAheadCorrectionInputIndex (dicTraverseCache traverseSession)
         point0Index in
  let isCompletionNode := isCompletion dicNode inputSize in
  let shouldNodeLevelCacheNow :=
    shouldNodeLevelCache traverseSession dicNode in
  let '(s1, dicNode) :=
    if shouldDepthLevelCacheNow || shouldNodeLevelCacheNow
    then (onCache (copyPushContinue dicNode) traverseSession,
          setCached dicNode)
    else (traverseSession, dicNode) in
  if isLookAheadCorrection then
    let s2 := if CORRECT_TRANSPOSITION
              then processDicNodeAsTransposition s1 dicNode else s1 in
    if CORRECT_INSERTION then processDicNodeAsInsertion s2 dicNode else s2
  else
    let allowsCorrections := allowsErrorCorrections dicNode in
    let s2 :=
      if allowsCorrections && isSpaceSubstitutionTerminal s1 dicNode
      then createNextWordDicNode s1 dicNode true
      else s1 in
    let childDicNodes := getAllChildDicNodes dicNode in
    let s3 :=
      fold_left (expandChild isCompletionNode allowsCorrections dicNode)
        childDicNodes s2 in
    if allowsCorrections && canDoLookAhead
    then onCache (copyPushNextActive dicNode) s3
    else s3.

(** The [while (activeSize() > 0)] loop of [expandCurrentDicNodes].  The
    loop of the source has no bound of its own; [fuel] bounds the number
    of iterations, and [None] says that the bound was reached. *)
Fixpoint expandLoop (fuel : nat) (shouldDepthLevelCacheNow : bool)
    (traverseSession : Session) : option Session :=
  if 0 <? activeSize (dicTraverseCache traverseSession) then
    match fuel with
    | O => None
    | S fuel' =>
        let '(dicNode, cache) := popActive (dicTraverseCache traverseSession) in
        let s1 := onCache (fun _ => cache) traverseSession in
        if isTotalInputSizeExceedingLimit dicNode then Some s1
        else expandLoop fuel' shouldDepthLevelCacheNow
               (expandDicNode shouldDepthLevelCacheNow s1 dicNode)
    end
  else Some traverseSession.

Definition expandCurrentDicNodes (fuel : nat) (traverseSession : Session)
  : option Session :=
  let shouldDepthLevelCacheNow := shouldDepthLevelCache traverseSession in
  let s1 :=
    if shouldDepthLevelCacheNow
    then onCache updateLastCachedInputIndex traverseSession
    else traverseSession in
  expandLoop fuel shouldDepthLevelCacheNow s1.

(** The loop that the specification describes: a node over the limit is
    dropped and the loop goes on with the rest of the frontier.  It is
    the loop above with [continue] in the place of [return]. *)
Fixpoint expandLoop_spec (fuel : nat) (shouldDepthLevelCacheNow : bool)
    (traverseSession : Session) : option Session :=
  if 0 <? activeSize (dicTraverseCache traverseSession) then
    match fuel with
    | O => None
    | S fuel' =>
        let '(dicNode, cache) := popActive (dicTraverseCache traverseSession) in
        let s1 := onCache (fun _ => cache) traverseSession in
        if isTotalInputSizeExceedingLimit dicNode
        then expandLoop_spec fuel' shouldDepthLevelCacheNow s1
        else expandLoop_spec fuel' shouldDepthLevelCacheNow
               (expandDicNode shouldDepthLevelCacheNow s1 dicNode)
    end
  else Some traverseSession.

(** *** outputSuggestions *)

(** The loop that pops [terminalSize] terminals into
    [terminals[terminalSize - 1]], ..., [terminals[0]]. *)
Fixpoint popTerminals (n : nat) (cache : Cache) (terminals : list DicNode)
  : list DicNode * Cache :=
  match n with
  | O => (terminals, cache)
  | S n' =>
      let '(terminal, cache') := popTerminal cache in
      popTerminals n' cache' (terminal :: terminals)
  end.

Definition terminalAttributesOf (terminalDicNode : DicNode)
  : TerminalAttributes :=
  mkTerminalAttributes (getFlags terminalDicNode)
    (getAttributesPos terminalDicNode).

Definition isValidWord (terminalDicNode : DicNode) : bool :=
  (0 <? getProbability terminalDicNode)
  && negb (isBlacklistedOrNotAWord (terminalAttributesOf terminalDicNode)).

Definition isForceCommitMultiWords (traverseSession : Session)
    (terminalDicNode : DicNode) : bool :=
  allowPartialCommit
  && (partiallyCommited traverseSession
      || ((MIN_LEN_FOR_MULTI_WORD_AUTOCORRECT <=? sessionInputSize traverseSession)
          && hasMultipleWords terminalDicNode)).

(** The body of the output loop for the terminal at [terminalIndex]. *)
Definition outputTerminal (traverseSession : Session) (languageWeight : float)
    (doubleLetterTerminalIndex : Z) (doubleLetterLevel : DoubleLetterLevel)
    (terminalIndex : Z) (terminalDicNode : DicNode) (st : EmitState)
  : EmitState :=
  let doubleLetterCost :=
    getDoubleLetterDemotionDistanceCost terminalIndex
      doubleLetterTerminalIndex doubleLetterLevel in
  let compoundDistance :=
    Binary32.add (getCompoundDistanceWeighted terminalDicNode languageWeight)
      doubleLetterCost in
  let terminalAttributes := terminalAttributesOf terminalDicNode in
  let valid := isValidWord terminalDicNode in
  let force := isForceCommitMultiWords traverseSession terminalDicNode in
  let forceArg := force || (valid && doesAutoCorrectValidWord) in
  let finalScore :=
    calculateFinalScore compoundDistance (sessionInputSize traverseSession)
      forceArg in
  let calls :=
    scoreCalls st
    ++ [(compoundDistance, sessionInputSize traverseSession, forceArg)] in
  let out := emitted st in
  let out1 :=
    if allowPartialCommit && (valid && (outputWordIndex st =? 0))
    then mkOutput (outWords out) (frequencies out)
           (outputSpacePositionsResult terminalDicNode (outputIndices out))
           (outputTypes out)
    else out in
  let '(index2, out2) :=
    if valid then
      let i := Z.to_nat (outputWordIndex st) in
      (outputWordIndex st + 1,
       mkOutput
         (outputResult terminalDicNode (outputWordIndex st * MAX_WORD_LENGTH)
            (outWords out1))
         (<[i := finalScore]> (frequencies out1))
         (outputIndices out1)
         (<[i := KIND_CORRECTION]> (outputTypes out1)))
    else (outputWordIndex st, out1) in
  let same := sameAsTyped traverseSession terminalDicNode in
  let '(index3, out3) :=
    outputShortcuts terminalAttributes index2 finalScore out2 same in
  mkEmitState index3 (Z.max (maxScore st) finalScore) out3 calls.

(** The output loop: [terminalIndex < terminalSize] holds as long as a
    terminal is left in the list. *)
Fixpoint outputLoop (traverseSession : Session) (languageWeight : float)
    (doubleLetterTerminalIndex : Z) (doubleLetterLevel : DoubleLetterLevel)
    (terminalIndex : Z) (terminals : list DicNode) (st : EmitState)
  : EmitState :=
  match terminals with
  | [] => st
  | terminalDicNode :: rest =>
      if outputWordIndex st <? MAX_RESULTS then
        outputLoop traverseSession languageWeight doubleLetterTerminalIndex
          doubleLetterLevel (terminalIndex + 1) rest
          (outputTerminal traverseSession languageWeight
             doubleLetterTerminalIndex doubleLetterLevel terminalIndex
             terminalDicNode st)
      else st
  end.

(** [outputSuggestions] returns the number of entries and leaves the
    output arrays and the session changed; the list of the terminals that
    were popped, best first, is returned with them. *)
Definition outputSuggestionsFull (traverseSession : Session) (out : Output)
  : EmitState * list DicNode * Session :=
  let size :=
    Z.min MAX_RESULTS (terminalSize (dicTraverseCache traverseSession)) in
  let '(terminals, cache) :=
    popTerminals (Z.to_nat size) (dicTraverseCache traverseSession) [] in
  let s1 := onCache (fun _ => cache) traverseSession in
  let languageWeight := getAdjustedLanguageWeight s1 terminals size in
  let '(hasMostProbableString, out1) :=
    getMostProbableString s1 size languageWeight out in
  let index0 := if hasMostProbableString then 1 else 0 in
  let '(doubleLetterTerminalIndex, doubleLetterLevel) :=
    searchWordWithDoubleLetter terminals size (-1, NOT_A_DOUBLE_LETTER) in
  let st :=
    outputLoop s1 languageWeight doubleLetterTerminalIndex doubleLetterLevel
      0 terminals (mkEmitState index0 S_INT_MIN out1 []) in
  let out2 :=
    if hasMostProbableString
    then safetyNetForMostProbableString size (maxScore st) (emitted st)
    else emitted st in
  (mkEmitState (outputWordIndex st) (maxScore st) out2 (scoreCalls st),
   terminals, s1).

Definition outputSuggestions (traverseSession : Session) (out : Output)
  : Z * Output * Session :=
  let '(st, _, s1) := outputSuggestionsFull traverseSession out in
  (outputWordIndex st, emitted st, s1).

(** *** getSuggestions *)

(** The loop "keep expanding search dicNodes until all have terminated". *)
Fixpoint searchLoop (fuel : nat) (inputSize : Z) (traverseSession : Session)
  : option Session :=
  if 0 <? activeSize (dicTraverseCache traverseSession) then
    match fuel with
    | O => None
    | S fuel' =>
        match expandCurrentDicNodes fuel' traverseSession with
        | None => None
        | Some s1 =>
            let s2 := onCache advanceActiveDicNodes s1 in
            let s3 := onCache (advanceInputIndex inputSize) s2 in
            searchLoop fuel' inputSize s3
        end
    end
  else Some traverseSession.

Definition getSuggestions (fuel : nat) (traverseSession : Session)
    (input : TouchInput) (commitPoint : Z) (out : Output)
  : option (Z * Output * Session) :=
  let maxSpatialDistance := getMaxSpatialDistance in
  let tSession :=
    setupForGetSuggestions traverseSession input maxSpatialDistance
      getMaxPointerCount in
  let s1 := initializeSearch tSession commitPoint in
  match searchLoop fuel (tiInputSize input) s1 with
  | None => None
  | Some s2 => Some (outputSuggestions s2 out)
  end.

End Driver.

End Suggest.

(** ** A small implementation of the collaborators

    A dictionary node as a plain record, the cache as bounded priority
    lists, and simple policies: enough to run the driver on concrete
    frontiers.  The files of [DicNode] and of the cache are not among the
    sources; the node and the cache follow the data model and the
    priority-queue cache of the specification. *)

Module Scenario.

(** Modelled from the spec: the attributes of a [DicNode] that the
    driver asks for (dic_node.h is not among the sources). *)
Record SimpleNode : Type := mkNode {
  snId : Z;                 (* the code point the node ends with *)
  snInputIndex : Z;         (* touch points consumed by the path *)
  snExceeds : bool;         (* the total length is over the limit *)
  snTerminal : bool;
  snMultipleWords : bool;
  snProbability : Z;
  snFlags : Z;              (* 1: blacklisted or not a word; 2: has a shortcut *)
  snCached : bool;
  snPrevWordNodePos : Z;
  snChildren : list Z;      (* code points of the children in the trie *)
  snScoring : DicNodeStateScoring
}.

Definition withScoring (n : SimpleNode) (sc : DicNodeStateScoring)
  : SimpleNode :=
  mkNode (snId n) (snInputIndex n) (snExceeds n) (snTerminal n)
    (snMultipleWords n) (snProbability n) (snFlags n) (snCached n)
    (snPrevWordNodePos n) (snChildren n) sc.

Definition forwardInputIndex (n : SimpleNode) (k : Z) : SimpleNode :=
  mkNode (snId n) (snInputIndex n + k) (snExceeds n) (snTerminal n)
    (snMultipleWords n) (snProbability n) (snFlags n) (snCached n)
    (snPrevWordNodePos n) (snChildren n) (snScoring n).

Definition markCached (n : SimpleNode) : SimpleNode :=
  mkNode (snId n) (snInputIndex n) (snExceeds n) (snTerminal n)
    (snMultipleWords n) (snProbability n) (snFlags n) true
    (snPrevWordNodePos n) (snChildren n) (snScoring n).

Definition rootNode (prevWord : Z) (children : list Z) : SimpleNode :=
  mkNode 0 0 false false false 0 0 false prevWord children Scoring.init.

(** A word node of the lexicon: a terminal without children. *)
Definition wordNode (id probability flags : Z) : SimpleNode :=
  mkNode id 0 false true false probability flags false 0 [] Scoring.init.

#[global] Instance simpleNodeClass : DicNodeClass SimpleNode := {|
  scoringState := snScoring;
  isTotalInputSizeExceedingLimit := snExceeds;
  getInputIndex := fun n _ => snInputIndex n;
  isCompletion := fun n inputSize => inputSize <=? snInputIndex n;
  setCached := markCached;
  isTerminalWordNode := snTerminal;
  shouldBeFilterdBySafetyNetForBigram := fun _ => false;
  hasMultipleWords := snMultipleWords;
  hasChildren := fun n => negb (forallb (fun _ => false) (snChildren n));
  isZeroCostOmission := fun _ => false;
  getProbability := snProbability;
  getFlags := snFlags;
  getAttributesPos := snId;
  getPrevWordNodePos := snPrevWordNodePos;
  initByCopy := fun n => n;
  outputResult := fun n start buffer => <[Z.to_nat start := snId n]> buffer;
  outputSpacePositionsResult := fun _ indices => indices
|}.

(** Modelled from the spec: the priority-queue cache (the file of
    [DicNodesCache] is not among the sources).  Three heaps and the
    continuation snapshot, each a list in priority order (best first, the
    key is the normalized compound distance) of at most [lcCapacity]
    nodes; an insertion into a full heap evicts the worst node. *)
Record ListCache : Type := mkCache {
  lcActive : list SimpleNode;
  lcNextActive : list SimpleNode;
  lcTerminals : list SimpleNode;
  lcContinue : list SimpleNode;
  lcCapacity : nat;
  lcTerminalCapacity : nat;
  lcInputIndex : Z;
  lcLastCachedInputIndex : Z
}.

Definition key (n : SimpleNode) : float :=
  Scoring.getNormalizedCompoundDistance (snScoring n).

(** Insertion in priority order, after the nodes that are not worse. *)
Fixpoint insertByKey (n : SimpleNode) (l : list SimpleNode)
  : list SimpleNode :=
  match l with
  | [] => [n]
  | m :: l' =>
      if Binary32.ltb (key n) (key m) then n :: l
      else m :: insertByKey n l'
  end.

(** Bounded insertion: the worst node leaves a frontier that is full. *)
Definition boundedPush (capacity : nat) (n : SimpleNode)
    (l : list SimpleNode) : list SimpleNode :=
  firstn capacity (insertByKey n l).

Definition popBest (l : list SimpleNode) : SimpleNode * list SimpleNode :=
  match l with
  | [] => (rootNode 0 [], [])
  | n :: l' => (n, l')
  end.

(** The terminal heap gives its worst node first. *)
Definition popWorst (l : list SimpleNode) : SimpleNode * list SimpleNode :=
  match rev l with
  | [] => (rootNode 0 [], [])
  | n :: l' => (n, rev l')
  end.

#[global] Instance listCacheClass : DicNodesCacheClass SimpleNode ListCache := {|
  activeSize := fun c => Z.of_nat (length (lcActive c));
  terminalSize := fun c => Z.of_nat (length (lcTerminals c));
  popActive := fun c =>
    let '(n, l) := popBest (lcActive c) in
    (n, mkCache l (lcNextActive c) (lcTerminals c) (lcContinue c)
          (lcCapacity c) (lcTerminalCapacity c) (lcInputIndex c)
          (lcLastCachedInputIndex c));
  popTerminal := fun c =>
    let '(n, l) := popWorst (lcTerminals c) in
    (n, mkCache (lcActive c) (lcNextActive c) l (lcContinue c)
          (lcCapacity c) (lcTerminalCapacity c) (lcInputIndex c)
          (lcLastCachedInputIndex c));
  copyPushActive := fun n c =>
    mkCache (boundedPush (lcCapacity c) n (lcActive c)) (lcNextActive c)
      (lcTerminals c) (lcContinue c) (lcCapacity c) (lcTerminalCapacity c)
      (lcInputIndex c) (lcLastCachedInputIndex c);
  copyPushNextActive := fun n c =>
    mkCache (lcActive c) (boundedPush (lcCapacity c) n (lcNextActive c))
      (lcTerminals c) (lcContinue c) (lcCapacity c) (lcTerminalCapacity c)
      (lcInputIndex c) (lcLastCachedInputIndex c);
  copyPushTerminal := fun n c =>
    mkCache (lcActive c) (lcNextActive c)
      (boundedPush (lcTerminalCapacity c) n (lcTerminals c)) (lcContinue c)
      (lcCapacity c) (lcTerminalCapacity c) (lcInputIndex c)
      (lcLastCachedInputIndex c);
  copyPushContinue := fun n c =>
    mkCache (lcActive c) (lcNextActive c) (lcTerminals c)
      (boundedPush (lcCapacity c) n (lcContinue c)) (lcCapacity c)
      (lcTerminalCapacity c) (lcInputIndex c) (lcLastCachedInputIndex c);
  advanceActiveDicNodes := fun c =>
    mkCache (lcNextActive c) [] (lcTerminals c) (lcContinue c)
      (lcCapacity c) (lcTerminalCapacity c) (lcInputIndex c)
      (lcLastCachedInputIndex c);
  advanceInputIndex := fun inputSize c =>
    mkCache (lcActive c) (lcNextActive c) (lcTerminals c) (lcContinue c)
      (lcCapacity c) (lcTerminalCapacity c)
      (if lcInputIndex c <? inputSize
       then lcInputIndex c + 1 else lcInputIndex c)
      (lcLastCachedInputIndex c);
  continueSearch := fun c =>
    mkCache (lcContinue c) [] [] (lcContinue c) (lcCapacity c)
      (lcTerminalCapacity c) (lcLastCachedInputIndex c)
      (lcLastCachedInputIndex c);
  setCommitPoint := fun _ c => (fst (popBest (lcContinue c)), c);
  updateLastCachedInputIndex := fun c =>
    mkCache (lcActive c) (lcNextActive c) (lcTerminals c) (lcContinue c)
      (lcCapacity c) (lcTerminalCapacity c) (lcInputIndex c) (lcInputIndex c);
  isLookAheadCorrectionInputIndex := fun c i => i =? lcInputIndex c - 1
|}.

Definition emptyCache : ListCache := mkCache [] [] [] [] 10 18 0 0.

(** The lexicon: a table from the code point of a node to the node. *)
Definition lexicon (id : Z) : option SimpleNode :=
  if id =? 104 then Some (wordNode 104 10 0)            (* a word *)
  else if id =? 105 then Some (wordNode 105 0 2)        (* probability 0 *)
  else if id =? 106 then Some (wordNode 106 7 1)        (* blacklisted *)
  else None.

Definition childrenOf (n : SimpleNode) : list SimpleNode :=
  omap
    (fun id =>
       match lexicon id with
       | Some child =>
           Some (mkNode (snId child) (snInputIndex n) (snExceeds child)
                   (snTerminal child) (snMultipleWords n)
                   (snProbability child) (snFlags child) false
                   (snPrevWordNodePos n) (snChildren child) (snScoring n))
       | None => None
       end)
    (snChildren n).

#[global] Instance simpleUtilsClass : DicNodeUtilsClass SimpleNode ListCache := {|
  initAsRoot := fun _ prevWord => rootNode prevWord [104; 105; 106];
  initAsRootWithPreviousWord := fun _ n =>
    mkNode 0 (snInputIndex n) false false true 0 0 false (snId n)
      [104; 105; 106] (snScoring n);
  utilsInitByCopy := fun n => n;
  getAllChildDicNodes := childrenOf;
  getProximityChildDicNodes := fun n _ _ _ => childrenOf n;
  setupForGetSuggestions := fun s input _ _ =>
    mkSession (proximityInfoState0Used s) (tiInputSize input)
      (continuousSuggestionPossible s) (partiallyCommited s) (prevWordPos s)
      (dicRootPos s) (dicTraverseCache s);
  resetCache := fun maxCacheSize maxTerminals s =>
    mkSession (proximityInfoState0Used s) (sessionInputSize s)
      (continuousSuggestionPossible s) (partiallyCommited s) (prevWordPos s)
      (dicRootPos s)
      (mkCache [] [] [] [] (Z.to_nat maxCacheSize) (Z.to_nat maxTerminals)
         0 0)
|}.

(** A traversal policy for typing; whether it allows partial commit is
    left open. *)
Definition simpleTraversal (partialCommit : bool)
  : TraversalClass SimpleNode ListCache := {|
  getMaxSpatialDistance := Binary32.one;
  getMaxPointerCount := 1;
  getMaxCacheSize := 10;
  getDefaultExpandDicNodeSize := 40;
  allowPartialCommit := partialCommit;
  needsToTraverseAllUserInput := true;
  shouldDepthLevelCache := fun _ => false;
  shouldNodeLevelCache := fun _ _ => false;
  canDoLookAheadCorrection := fun _ _ => false;
  allowsErrorCorrections := fun _ => false;
  isSpaceSubstitutionTerminal := fun _ _ => false;
  isSpaceOmissionTerminal := fun _ _ => false;
  isOmission := fun _ _ _ => false;
  isPossibleOmissionChildNode := fun _ _ _ => false;
  getProximityType := fun _ _ _ => MATCH_CHAR;
  isGoodToTraverseNextWord := fun _ => false;
  sameAsTyped := fun _ _ => false
|}.

(** A scoring policy: the score falls with the distance, the third
    argument of [calculateFinalScore] adds a bump.  A terminal whose
    flags have bit 2 carries one shortcut. *)
Definition KIND_SHORTCUT : Z := 7.

Definition simpleScoring (autoCorrectValidWord : bool)
  : ScoringClass SimpleNode ListCache := {|
  getAdjustedLanguageWeight := fun _ _ _ => Binary32.one;
  getMostProbableString := fun _ _ _ out => (false, out);
  searchWordWithDoubleLetter := fun _ _ found => found;
  getDoubleLetterDemotionDistanceCost := fun _ _ _ => Binary32.zero;
  calculateFinalScore := fun distance inputSize force =>
    (if Binary32.ltb distance Binary32.one then 1000 else 10)
    + (if force then 1000000 else 0);
  doesAutoCorrectValidWord := autoCorrectValidWord;
  safetyNetForMostProbableString := fun _ _ out => out;
  isBlacklistedOrNotAWord := fun attributes => Z.odd (taFlags attributes);
  outputShortcuts := fun attributes index finalScore out _ =>
    if Z.testbit (taFlags attributes) 1 then
      (index + 1,
       mkOutput (<[Z.to_nat (index * 48) := - taPos attributes]> (outWords out))
         (<[Z.to_nat index := finalScore]> (frequencies out))
         (outputIndices out)
         (<[Z.to_nat index := KIND_SHORTCUT]> (outputTypes out)))
    else (index, out)
|}.

(** The weighting: a match consumes one touch point at no cost; the other
    events cost nothing and consume nothing. *)
#[global] Instance simpleWeighting : WeightingClass SimpleNode ListCache := {|
  addCostAndForwardInputIndex := fun event s _ n _ =>
    let n1 :=
      withScoring n
        (Scoring.addCost (snScoring n) Binary32.zero Binary32.zero true
           (sessionInputSize s) (snInputIndex n) false false) in
    match event with
    | CT_MATCH => forwardInputIndex n1 1
    | _ => n1
    end
|}.

#[global] Instance simpleDefines : Defines := {|
  MAX_RESULTS := 18;
  MAX_WORD_LENGTH := 48;
  MAX_VALUE_FOR_WEIGHTING := 10000000;
  S_INT_MIN := -2147483648;
  KIND_CORRECTION := 1
|}.

(** A cost addition of the spatial cost 16777216 (2^24), after which a
    cost of 1 is absorbed by the rounding, and a cost addition of 1 and
    1. *)
Definition largeCost : Scoring.AddCostCall :=
  Scoring.mkAddCostCall (Binary32.of_int 16777216) Binary32.zero true 3 1
    false false.

Definition unitCost : Scoring.AddCostCall :=
  Scoring.mkAddCostCall Binary32.one Binary32.one true 3 2 false false.

(** The scoring state whose two counters have reached [INT16_MAX]. *)
Definition saturatedScoring : DicNodeStateScoring :=
  mkScoring NOT_A_DOUBLE_LETTER INT16_MAX INT16_MAX Binary32.zero
    Binary32.zero Binary32.zero Binary32.zero Binary32.zero.

Definition emptyOutput : Output :=
  mkOutput (repeat 0 (18 * 48)) (repeat 0 18) (repeat 0 18) (repeat 0 18).

(** A path whose total length is over the limit, and a path that can
    still grow into the word 104. *)
Definition overlongNode : SimpleNode :=
  mkNode 1 0 true false false 0 0 false 0 [] Scoring.init.

Definition stemNode : SimpleNode :=
  mkNode 2 2 false false false 0 0 false 0 [104] Scoring.init.

(** A frontier that holds both, the overlong path first. *)
Definition mixedFrontier : ListCache :=
  mkCache [overlongNode; stemNode] [] [] [overlongNode; stemNode] 10 18 0 0.

Definition mixedFrontierSession : DicTraverseSession ListCache :=
  mkSession true 3 true false 0 0 mixedFrontier.

(** The session before a call that resumes the search at that frontier. *)
Definition resumedSession : DicTraverseSession ListCache :=
  mkSession true 3 true false 0 0
    (mkCache [] [] [] [overlongNode; stemNode] 10 18 0 0).

Definition threePoints : TouchInput :=
  mkTouchInput [0; 0; 0] [0; 0; 0] [0; 1; 2] [0; 0; 0] [104; 104; 104] 3.

(** The policies with and without partial commit, and the scoring that
    auto-corrects valid words. *)
Definition partialCommitTraversal : TraversalClass SimpleNode ListCache :=
  simpleTraversal true.

Definition plainTraversal : TraversalClass SimpleNode ListCache :=
  simpleTraversal false.

Definition autoCorrectingScoring : ScoringClass SimpleNode ListCache :=
  simpleScoring true.

(** A session that can continue the previous search, on an input of
    three touch points. *)
Definition continuingSession : DicTraverseSession ListCache :=
  mkSession true 3 true false 0 0
    (mkCache [] [] [] [stemNode] 10 18 0 0).

(** A terminal word with children whose distances are NaN. *)
Definition nanNode : SimpleNode :=
  mkNode 104 3 false true false 10 0 false 0 [105]
    (mkScoring NOT_A_DOUBLE_LETTER 0 0 S754_nan S754_nan Binary32.zero
       Binary32.zero Binary32.zero).



(** A node whose spatial distance is [MAX_VALUE_FOR_WEIGHTING]. *)
Definition farNode : SimpleNode :=
  mkNode 104 1 false true false 10 0 false 0 [105]
    (mkScoring NOT_A_DOUBLE_LETTER 0 0 (Binary32.of_int 10000000)
       (Binary32.of_int 10000000) Binary32.zero Binary32.zero Binary32.zero).

Definition emitStart : Suggest.EmitState :=
  Suggest.mkEmitState 0 (-2147483648) emptyOutput [].

(** A traversal policy that allows the error corrections: look-ahead
    correction is possible at every node, every terminal can be followed
    by a space that was typed as another key, and a next word can start
    after every node. *)
Definition correctingTraversal : TraversalClass SimpleNode ListCache := {|
  getMaxSpatialDistance := Binary32.one;
  getMaxPointerCount := 1;
  getMaxCacheSize := 10;
  getDefaultExpandDicNodeSize := 40;
  allowPartialCommit := false;
  needsToTraverseAllUserInput := true;
  shouldDepthLevelCache := fun _ => false;
  shouldNodeLevelCache := fun _ _ => false;
  canDoLookAheadCorrection := fun _ _ => true;
  allowsErrorCorrections := fun _ => true;
  isSpaceSubstitutionTerminal := fun _ n => snTerminal n;
  isSpaceOmissionTerminal := fun _ _ => false;
  isOmission := fun _ _ _ => false;
  isPossibleOmissionChildNode := fun _ _ _ => false;
  getProximityType := fun _ _ _ => MATCH_CHAR;
  isGoodToTraverseNextWord := fun _ => true;
  sameAsTyped := fun _ _ => false
|}.

(** A session whose frontier is empty, on an input of three touch
    points. *)
Definition idleSession : DicTraverseSession ListCache :=
  mkSession true 3 true false 0 0 emptyCache.

(** A session whose frontier holds the node [farNode] alone. *)
Definition farFrontierSession : DicTraverseSession ListCache :=
  mkSession true 3 true false 0 0 (mkCache [farNode] [] [] [] 10 18 0 0).

(** Nine words, each with a shortcut, and after them the terminal 105,
    of probability 0 and with a shortcut: the terminal heap of a session
    whose search is over. *)
Definition crowdedTerminals : list SimpleNode :=
  map (fun id => wordNode id 10 2) [111; 112; 113; 114; 115; 116; 117; 118; 119]
  ++ [wordNode 105 0 2].

Definition crowdedSession : DicTraverseSession ListCache :=
  mkSession true 3 true false 0 0
    (mkCache [] [] crowdedTerminals [] 10 18 0 0).



End Scenario.

(** ** Histories of calls and relations between sessions *)

(** The number of calls of a history that set the edit correction flag,
    and the number that set the proximity correction flag. *)
Fixpoint editCorrections (history : list Scoring.AddCostCall) : nat :=
  match history with
  | [] => 0%nat
  | c :: rest =>
      ((if Scoring.acIsEditCorrection c then 1 else 0)
       + editCorrections rest)%nat
  end.

Fixpoint proximityCorrections (history : list Scoring.AddCostCall) : nat :=
  match history with
  | [] => 0%nat
  | c :: rest =>
      ((if Scoring.acIsProximityCorrection c then 1 else 0)
       + proximityCorrections rest)%nat
  end.

(** The test of suggest.cpp line 337 on a node: its compound distance
    has reached [MAX_VALUE_FOR_WEIGHTING]. *)
Definition reachedMaxValueForWeighting {DicNode : Type}
    {DN : DicNodeClass DicNode} {DEFS : Defines} (dicNode : DicNode) : bool :=
  Binary32.geb (Suggest.getCompoundDistance dicNode)
    Suggest.maxValueForWeighting.

(** The data of a session apart from its cache. *)
Definition sameSessionData {Cache : Type} (s s' : DicTraverseSession Cache)
  : Prop :=
  proximityInfoState0Used s' = proximityInfoState0Used s
  /\ sessionInputSize s' = sessionInputSize s
  /\ continuousSuggestionPossible s' = continuousSuggestionPossible s
  /\ partiallyCommited s' = partiallyCommited s
  /\ prevWordPos s' = prevWordPos s
  /\ dicRootPos s' = dicRootPos s.

(** [pushesOnly s s']: the session [s'] is the session [s] after pushes
    into the next-active heap, the terminal heap and the continuation
    cache, and after nothing else. *)
Inductive pushesOnly {DicNode Cache : Type}
    {DC : DicNodesCacheClass DicNode Cache}
  : DicTraverseSession Cache -> DicTraverseSession Cache -> Prop :=
| pushes_none (s : DicTraverseSession Cache) : pushesOnly s s
| pushes_next_active (s s' : DicTraverseSession Cache) (n : DicNode) :
    pushesOnly s s' ->
    pushesOnly s (Suggest.onCache (copyPushNextActive n) s')
| pushes_terminal (s s' : DicTraverseSession Cache) (n : DicNode) :
    pushesOnly s s' ->
    pushesOnly s (Suggest.onCache (copyPushTerminal n) s')
| pushes_continue (s s' : DicTraverseSession Cache) (n : DicNode) :
    pushesOnly s s' ->
    pushesOnly s (Suggest.onCache (copyPushContinue n) s').

(** What the expansion loop needs of the size of the active heap: a pop
    takes one node from a heap that is not empty, and the other heaps and
    the cached input index are apart from it. *)
Class ActiveSizeLaws (DicNode Cache : Type)
    {DC : DicNodesCacheClass DicNode Cache} : Prop := {
  activeSize_popActive : forall c : Cache,
    0 < activeSize c -> activeSize (snd (popActive c)) = activeSize c - 1;
  activeSize_copyPushNextActive : forall (n : DicNode) (c : Cache),
    activeSize (copyPushNextActive n c) = activeSize c;
  activeSize_copyPushTerminal : forall (n : DicNode) (c : Cache),
    activeSize (copyPushTerminal n c) = activeSize c;
  activeSize_copyPushContinue : forall (n : DicNode) (c : Cache),
    activeSize (copyPushContinue n c) = activeSize c;
  activeSize_updateLastCachedInputIndex : forall c : Cache,
    activeSize (updateLastCachedInputIndex c) = activeSize c
}.

(** * Properties *)

(** ** Binary32 on known values *)

Example binary32_one_plus_one :
  Binary32.add Binary32.one Binary32.one = Binary32.of_int 2.
Proof. reflexivity. Qed.

Example binary32_ten_million :
  Binary32.of_int 10000000 = S754_finite false 10000000 0.
Proof. reflexivity. Qed.

(** 2^24 + 1 is not a binary32 number: the sum is rounded to 2^24. *)
Example binary32_absorbs_one :
  Binary32.add (Binary32.of_int 16777216) Binary32.one
  = Binary32.of_int 16777216.
Proof. reflexivity. Qed.

Example binary32_one_third :
  Binary32.div Binary32.one (Binary32.of_int 3)
  = S754_finite false 11184811 (-25).
Proof. reflexivity. Qed.

(** A NaN is neither below nor above anything, itself included. *)
Example binary32_nan_unordered :
  Binary32.geb (Binary32.add S754_nan Binary32.one) S754_nan = false
  /\ Binary32.ltb S754_nan Binary32.one = false
  /\ Binary32.gtb S754_nan Binary32.zero = false.
Proof. repeat split. Qed.

(** ** Addition in binary32 *)

Section Binary32Addition.

(** Powers of two. *)
Lemma pow2_pos (k : Z) : 0 <= k -> 0 < 2 ^ k.
Proof. intros H. apply Z.pow_pos_nonneg; lia. Qed.

Lemma pow2_add (a b : Z) : 0 <= a -> 0 <= b -> 2 ^ (a + b) = 2 ^ a * 2 ^ b.
Proof. intros Ha Hb. apply Z.pow_add_r; assumption. Qed.

Lemma pow2_lt_inv (a b : Z) : 0 <= b -> 2 ^ a < 2 ^ b -> a < b.
Proof.
  intros Hb H. apply (Z.pow_lt_mono_r_iff 2 a b); [lia|exact Hb|exact H].
Qed.

Lemma pow2_le (a b : Z) : 0 <= a <= b -> 2 ^ a <= 2 ^ b.
Proof. intros H. apply Z.pow_le_mono_r; lia. Qed.

(** The number of binary digits of a mantissa. *)
Lemma digits2_pos_bounds (m : positive) :
  2 ^ (Zpos (digits2_pos m) - 1) <= Zpos m < 2 ^ Zpos (digits2_pos m).
Proof.
  induction m as [m IH|m IH|]; cbn [digits2_pos].
  - rewrite Pos2Z.inj_succ.
    replace (Z.succ (Zpos (digits2_pos m)) - 1)
      with (Z.succ (Zpos (digits2_pos m) - 1)) by lia.
    rewrite !Z.pow_succ_r by lia. lia.
  - rewrite Pos2Z.inj_succ.
    replace (Z.succ (Zpos (digits2_pos m)) - 1)
      with (Z.succ (Zpos (digits2_pos m) - 1)) by lia.
    rewrite !Z.pow_succ_r by lia. lia.
  - simpl. lia.
Qed.

(** [shl_align] keeps the value and lowers the exponent to the minimum. *)
Lemma shl_align_spec (mx : positive) (ex ex' : Z) :
  snd (shl_align mx ex ex') = Z.min ex ex'
  /\ Zpos (fst (shl_align mx ex ex'))
     = Zpos mx * 2 ^ (ex - snd (shl_align mx ex ex')).
Proof.
  unfold shl_align.
  destruct (ex' - ex) as [|d|d] eqn:Hd; cbn [fst snd].
  - split; [lia|]. rewrite Z.sub_diag. simpl. lia.
  - split; [lia|]. rewrite Z.sub_diag. simpl. lia.
  - split; [lia|].
    replace (ex - ex') with (Zpos d) by lia.
    change (Pos.iter xO mx d) with (shift_pos d mx).
    rewrite shift_pos_correct, Z.pow_pos_fold. lia.
Qed.

(** [shr_1] halves a mantissa that is not negative. *)
Lemma shr_1_m (mrs : shr_record) :
  0 <= shr_m mrs ->
  shr_m (shr_1 mrs) = shr_m mrs / 2 /\ 0 <= shr_m (shr_1 mrs).
Proof.
  destruct mrs as [m r s]. cbn [shr_m shr_1]. intros Hm.
  destruct m as [|[p|p|]|p]; cbn [shr_m]; try lia.
  all: split; [try reflexivity|lia].
  - rewrite (Pos2Z.inj_xI p). apply (Z.div_unique _ 2 _ 1); lia.
  - rewrite (Pos2Z.inj_xO p). apply (Z.div_unique _ 2 _ 0); lia.
Qed.

Lemma iter_shr_1_m (n : positive) : forall mrs : shr_record,
  0 <= shr_m mrs ->
  shr_m (SpecFloat.iter_pos shr_1 n mrs) = shr_m mrs / 2 ^ Zpos n
  /\ 0 <= shr_m (SpecFloat.iter_pos shr_1 n mrs).
Proof.
  induction n as [n IH|n IH|]; intros mrs Hm; cbn [SpecFloat.iter_pos].
  - destruct (shr_1_m mrs Hm) as [H1 H1'].
    destruct (IH _ H1') as [H2 H2'].
    destruct (IH _ H2') as [H3 H3'].
    split; [|exact H3'].
    rewrite H3, H2, H1.
    rewrite !Z.div_div by (try apply pow2_pos; lia).
    f_equal. rewrite (Pos2Z.inj_xI n).
    replace (2 * Zpos n + 1) with (1 + Zpos n + Zpos n) by lia.
    rewrite (pow2_add (1 + Zpos n) (Zpos n)) by lia.
    rewrite (pow2_add 1 (Zpos n)) by lia.
    change (2 ^ 1) with 2. lia.
  - destruct (IH _ Hm) as [H2 H2'].
    destruct (IH _ H2') as [H3 H3'].
    split; [|exact H3'].
    rewrite H3, H2.
    rewrite !Z.div_div by (try apply pow2_pos; lia).
    f_equal. rewrite (Pos2Z.inj_xO n).
    replace (2 * Zpos n) with (Zpos n + Zpos n) by lia.
    rewrite (pow2_add (Zpos n) (Zpos n)) by lia. lia.
  - destruct (shr_1_m mrs Hm) as [H1 H1']. split; [|exact H1'].
    rewrite H1. reflexivity.
Qed.

(** Rounding down to the exponent of binary32 does not go below a
    canonical number: [X * 2^b] is canonical ([b] is its exponent above
    [emin]), [M * 2^a] is not smaller, and [M] is shifted right to the
    exponent [a'] that its magnitude asks for. *)
Lemma floor_keeps_above (X dx b M dM a : Z) :
  2 ^ (dx - 1) <= X < 2 ^ dx -> 1 <= dx ->
  2 ^ (dM - 1) <= M < 2 ^ dM -> 1 <= dM ->
  0 <= a -> 0 <= b ->
  b = Z.max (dx + b - 24) 0 ->
  X * 2 ^ b <= M * 2 ^ a ->
  let a' := Z.max a (Z.max (dM + a - 24) 0) in
  X * 2 ^ b <= (M / 2 ^ (a' - a)) * 2 ^ a' /\ b <= a'.
Proof.
  intros HX Hdx HM HdM Ha Hb Hcanon Hle a'.
  assert (Hpa : 0 < 2 ^ a) by (apply pow2_pos; lia).
  assert (Hpb : 0 < 2 ^ b) by (apply pow2_pos; lia).
  (* the magnitudes are ordered *)
  assert (Hmag : dx + b <= dM + a).
  { assert (H : 2 ^ (dx - 1 + b) < 2 ^ (dM + a)).
    { rewrite (pow2_add (dx - 1) b), (pow2_add dM a) by lia.
      apply Z.le_lt_trans with (X * 2 ^ b).
      - apply Z.mul_le_mono_nonneg_r; lia.
      - apply Z.le_lt_trans with (M * 2 ^ a); [exact Hle|].
        apply Z.mul_lt_mono_pos_r; lia. }
    apply pow2_lt_inv in H; lia. }
  split; [|subst a'; lia].
  destruct (Z.eq_dec a' a) as [Hsame|Hshift].
  - rewrite Hsame, Z.sub_diag. change (2 ^ 0) with 1. rewrite Z.div_1_r.
    exact Hle.
  - assert (Hn : 0 < a' - a) by (subst a'; lia).
    assert (Hpn : 0 < 2 ^ (a' - a)) by (apply pow2_pos; lia).
    destruct (Z.eq_dec a' b) as [Hb'|Hb'].
    + (* the same exponent as X: the floor of a multiple *)
      rewrite Hb'. apply Z.mul_le_mono_nonneg_r; [lia|].
      apply Z.div_le_lower_bound; [rewrite <- Hb'; exact Hpn|].
      apply (Z.mul_le_mono_pos_r _ _ (2 ^ a)); [exact Hpa|].
      replace (2 ^ (b - a) * X * 2 ^ a) with (X * (2 ^ (b - a) * 2 ^ a)) by ring.
      rewrite <- (pow2_add (b - a) a) by lia.
      replace (b - a + a) with b by lia. exact Hle.
    + (* a higher exponent: the shifted mantissa keeps its leading bit *)
      assert (Ha' : a' = dM + a - 24) by (subst a'; lia).
      assert (Hlead : 2 ^ 23 <= M / 2 ^ (a' - a)).
      { apply Z.div_le_lower_bound; [exact Hpn|].
        rewrite <- (pow2_add (a' - a) 23) by lia.
        replace (a' - a + 23) with (dM - 1) by lia. lia. }
      apply Z.le_trans with (2 ^ (dx + b)).
      * rewrite (pow2_add dx b) by lia.
        apply Z.mul_le_mono_nonneg_r; lia.
      * apply Z.le_trans with (2 ^ 23 * 2 ^ a').
        -- rewrite <- (pow2_add 23 a') by lia. apply pow2_le. lia.
        -- apply Z.mul_le_mono_nonneg_r; [|exact Hlead].
           apply Z.lt_le_incl, pow2_pos. lia.
Qed.

Lemma canonical_exponent (mx : positive) (ex : Z) :
  canonical_mantissa Binary32.prec Binary32.emax mx ex = true ->
  ex = Z.max (Zpos (digits2_pos mx) + ex - 24) (-149).
Proof.
  unfold canonical_mantissa, fexp, emin, Binary32.prec, Binary32.emax.
  intros H. apply Z.eqb_eq in H. lia.
Qed.

Lemma shr_fexp_spec (p : positive) (e : Z) (l : location) :
  let r := shr_fexp Binary32.prec Binary32.emax (Zpos p) e l in
  snd r = Z.max e (Z.max (Zpos (digits2_pos p) + e - 24) (-149))
  /\ shr_m (fst r) = Zpos p / 2 ^ (snd r - e).
Proof.
  unfold shr_fexp, shr, fexp, emin, Binary32.prec, Binary32.emax.
  cbn [Zdigits2].
  assert (Hm : shr_m (shr_record_of_loc (Zpos p) l) = Zpos p)
    by (destruct l as [|[ | | ]]; reflexivity).
  destruct (Z.max (Zpos (digits2_pos p) + e - 24) (3 - 128 - 24) - e)
    as [|n|n] eqn:Hn; cbn [fst snd].
  - split; [lia|]. rewrite Z.sub_diag, Hm. change (2 ^ 0) with 1.
    rewrite Z.div_1_r. reflexivity.
  - split; [lia|].
    destruct (iter_shr_1_m n (shr_record_of_loc (Zpos p) l)) as [H _];
      [rewrite Hm; lia|].
    rewrite H, Hm. f_equal. f_equal. lia.
  - split; [lia|]. rewrite Z.sub_diag, Hm. change (2 ^ 0) with 1.
    rewrite Z.div_1_r. reflexivity.
Qed.

Lemma scaled_pos (m e : Z) :
  Binary32.emin <= e -> 0 < Binary32.scaled m e -> 0 < m.
Proof.
  unfold Binary32.scaled. intros He H.
  assert (0 < 2 ^ (e - Binary32.emin)) by (apply pow2_pos; lia).
  nia.
Qed.

(** The first step of rounding keeps a number above every canonical
    number that it was above. *)
Lemma shr_fexp_keeps_above (mx : positive) (ex : Z) (p : positive) (e : Z)
    (l : location) :
  canonical_mantissa Binary32.prec Binary32.emax mx ex = true ->
  Binary32.emin <= e ->
  Binary32.scaled (Zpos mx) ex <= Binary32.scaled (Zpos p) e ->
  let r := shr_fexp Binary32.prec Binary32.emax (Zpos p) e l in
  Binary32.scaled (Zpos mx) ex <= Binary32.scaled (shr_m (fst r)) (snd r)
  /\ ex <= snd r
  /\ 0 < shr_m (fst r).
Proof.
  intros Hcanon He Hle r.
  destruct (shr_fexp_spec p e l) as [Hsnd Hfst]. fold r in Hsnd, Hfst.
  pose proof (canonical_exponent mx ex Hcanon) as Hex.
  unfold Binary32.scaled, Binary32.emin in *.
  destruct (floor_keeps_above (Zpos mx) (Zpos (digits2_pos mx)) (ex + 149)
              (Zpos p) (Zpos (digits2_pos p)) (e + 149)) as [H1 H2];
    try lia.
  - apply digits2_pos_bounds.
  - apply digits2_pos_bounds.
  - replace (ex + 149) with (ex - -149) by lia.
    replace (e + 149) with (e - -149) by lia. exact Hle.
  - replace (Z.max (e + 149)
               (Z.max (Zpos (digits2_pos p) + (e + 149) - 24) 0))
      with (snd r - -149) in H1, H2 by lia.
    replace (snd r - -149 - (e + 149)) with (snd r - e) in H1 by lia.
    rewrite <- Hfst in H1.
    replace (ex + 149) with (ex - -149) in H1 by lia.
    split; [exact H1|]. split; [lia|].
    apply (scaled_pos _ (snd r)); [unfold Binary32.emin; lia|].
    unfold Binary32.scaled, Binary32.emin.
    apply Z.lt_le_trans with (Zpos mx * 2 ^ (ex - -149)); [|exact H1].
    apply Z.mul_pos_pos; [lia|apply pow2_pos; lia].
Qed.

Lemma round_nearest_even_ge (m : Z) (l : location) :
  m <= round_nearest_even m l.
Proof.
  destruct l as [|[ | | ]]; simpl; try lia.
  destruct (Z.even m); lia.
Qed.

Lemma scaled_le_mono (m m' e : Z) :
  Binary32.emin <= e -> m <= m' ->
  Binary32.scaled m e <= Binary32.scaled m' e.
Proof.
  unfold Binary32.scaled. intros He H.
  apply Z.mul_le_mono_nonneg_r; [|exact H].
  apply Z.lt_le_incl, pow2_pos. lia.
Qed.

(** The comparison of two positive finite numbers, from their values. *)
Lemma leb_finite_finite (mx : positive) (ex : Z) (q : positive) (e : Z) :
  Binary32.emin <= ex -> ex <= e ->
  Binary32.scaled (Zpos mx) ex <= Binary32.scaled (Zpos q) e ->
  SFleb (S754_finite false mx ex) (S754_finite false q e) = true.
Proof.
  intros Hmin He Hle. unfold SFleb, SFcompare.
  destruct (Z.compare_spec ex e) as [Heq|Hlt|Hgt]; [|reflexivity|lia].
  subst e. change (Pos.compare_cont Eq mx q) with (Pos.compare mx q).
  destruct (Pos.compare_spec mx q) as [H|H|H]; try reflexivity.
  exfalso. unfold Binary32.scaled in Hle.
  assert (0 < 2 ^ (ex - Binary32.emin)) by (apply pow2_pos; lia).
  assert (Zpos q < Zpos mx) by lia. nia.
Qed.

(** Rounding keeps a positive number above every canonical number that
    it was above. *)
Lemma binary_round_aux_above (mx : positive) (ex : Z) (p : positive) (e : Z)
    (l : location) :
  canonical_mantissa Binary32.prec Binary32.emax mx ex = true ->
  Binary32.emin <= e ->
  Binary32.scaled (Zpos mx) ex <= Binary32.scaled (Zpos p) e ->
  SFleb (S754_finite false mx ex)
    (binary_round_aux Binary32.prec Binary32.emax false (Zpos p) e l) = true.
Proof.
  intros Hcanon He Hle.
  pose proof (canonical_exponent mx ex Hcanon) as Hex.
  assert (Hmin : Binary32.emin <= ex) by (unfold Binary32.emin; lia).
  unfold binary_round_aux.
  destruct (shr_fexp_keeps_above mx ex p e l Hcanon He Hle)
    as (H1 & He1 & Hm1).
  destruct (shr_fexp Binary32.prec Binary32.emax (Zpos p) e l)
    as [mrs1 e1]. cbn [fst snd] in H1, He1, Hm1.
  pose proof (round_nearest_even_ge (shr_m mrs1) (loc_of_shr_record mrs1))
    as Hrne.
  destruct (round_nearest_even (shr_m mrs1) (loc_of_shr_record mrs1))
    as [|p2|p2]; try lia.
  assert (H2 : Binary32.scaled (Zpos mx) ex <= Binary32.scaled (Zpos p2) e1).
  { etransitivity; [exact H1|]. apply scaled_le_mono; lia. }
  destruct (shr_fexp_keeps_above mx ex p2 e1 loc_Exact Hcanon
              ltac:(lia) H2) as (H3 & He3 & Hm3).
  destruct (shr_fexp Binary32.prec Binary32.emax (Zpos p2) e1 loc_Exact)
    as [mrs3 e3]. cbn [fst snd] in H3, He3, Hm3.
  destruct (shr_m mrs3) as [|q|q]; try lia.
  destruct (e3 <=? Binary32.emax - Binary32.prec).
  - apply leb_finite_finite; assumption.
  - reflexivity.
Qed.

Lemma scaled_shift (m e e' : Z) :
  Binary32.emin <= e' <= e ->
  Binary32.scaled (m * 2 ^ (e - e')) e' = Binary32.scaled m e.
Proof.
  unfold Binary32.scaled. intros H.
  rewrite <- Z.mul_assoc, <- (pow2_add (e - e') (e' - Binary32.emin)) by lia.
  f_equal. f_equal. lia.
Qed.

(** The sum of two positive finite numbers is not below the first. *)
Lemma add_finite_above (mx : positive) (ex : Z) (mc : positive) (ec : Z) :
  canonical_mantissa Binary32.prec Binary32.emax mx ex = true ->
  canonical_mantissa Binary32.prec Binary32.emax mc ec = true ->
  SFleb (S754_finite false mx ex)
    (SFadd Binary32.prec Binary32.emax (S754_finite false mx ex)
       (S754_finite false mc ec)) = true.
Proof.
  intros Hx Hc.
  pose proof (canonical_exponent mx ex Hx) as Hex.
  pose proof (canonical_exponent mc ec Hc) as Hec.
  unfold SFadd. cbn [cond_Zopp].
  set (ez := Z.min ex ec).
  destruct (shl_align_spec mx ex ez) as [Hxe Hxm].
  destruct (shl_align_spec mc ec ez) as [Hce Hcm].
  destruct (shl_align mx ex ez) as [ax ex'].
  destruct (shl_align mc ec ez) as [ac ec']. cbn [fst snd] in *.
  change (Zpos ax + Zpos ac) with (Zpos (ax + ac)).
  cbn [binary_normalize]. unfold binary_round.
  set (target := fexp Binary32.prec Binary32.emax
                   (Zpos (digits2_pos (ax + ac)) + ez)).
  assert (Htarget : Binary32.emin <= target)
    by (unfold target, fexp, emin, Binary32.prec, Binary32.emax,
          Binary32.emin; lia).
  destruct (shl_align_spec (ax + ac) ez target) as [Hse Hsm].
  destruct (shl_align (ax + ac) ez target) as [mz ez']. cbn [fst snd] in *.
  assert (Hez : Binary32.emin <= ez) by (unfold Binary32.emin, ez; lia).
  apply binary_round_aux_above; [exact Hx|lia|].
  rewrite Hsm, scaled_shift by lia.
  rewrite Pos2Z.inj_add, Hxm.
  replace ex' with ez by (unfold ez; lia).
  unfold Binary32.scaled at 2. rewrite Z.mul_add_distr_r.
  fold (Binary32.scaled (Zpos mx * 2 ^ (ex - ez)) ez).
  rewrite scaled_shift by (unfold ez; lia).
  assert (0 < 2 ^ (ez - Binary32.emin)) by (apply pow2_pos; lia).
  nia.
Qed.

(** Adding a number that is not negative to a number that is not
    negative does not decrease it. *)
Theorem add_nonneg_ge (x c : Binary32.float) :
  Binary32.valid x = true -> Binary32.valid c = true ->
  Binary32.leb Binary32.zero x = true ->
  Binary32.leb Binary32.zero c = true ->
  Binary32.leb x (Binary32.add x c) = true.
Proof.
  unfold Binary32.valid, Binary32.leb, Binary32.add, Binary32.zero.
  intros Hvx Hvc Hx Hc.
  destruct x as [sx|[|]| |[|] mx ex]; try discriminate Hx;
    destruct c as [sc|[|]| |[|] mc ec]; try discriminate Hc;
    try reflexivity.
  - destruct sx, sc; reflexivity.
  - cbn [SFadd]. unfold SFleb, SFcompare.
    rewrite Z.compare_refl.
    change (Pos.compare_cont Eq mx mx) with (Pos.compare mx mx).
    rewrite Pos.compare_refl. reflexivity.
  - cbn [valid_binary] in Hvx, Hvc. unfold bounded in Hvx, Hvc.
    apply andb_prop in Hvx. apply andb_prop in Hvc.
    apply add_finite_above; [apply Hvx|apply Hvc].
Qed.

(** *** The sum of two well-formed numbers is well formed *)

Lemma digits2_pos_unique (m : positive) (d : Z) :
  2 ^ (d - 1) <= Zpos m < 2 ^ d -> Zpos (digits2_pos m) = d.
Proof.
  intros [Hlo Hhi]. pose proof (digits2_pos_bounds m) as [Dlo Dhi].
  set (D := Zpos (digits2_pos m)) in *.
  assert (HD : 1 <= D) by (unfold D; lia).
  destruct (Z.lt_trichotomy D d) as [Hlt|[Heq|Hgt]]; [|exact Heq|].
  - assert (2 ^ D <= 2 ^ (d - 1)) by (apply pow2_le; lia). lia.
  - destruct (Z.le_gt_cases 0 d) as [Hd|Hd].
    + assert (2 ^ d <= 2 ^ (D - 1)) by (apply pow2_le; lia). lia.
    + rewrite (Z.pow_neg_r 2 d) in Hhi by lia. lia.
Qed.

Lemma fexp_le (a b : Z) :
  a <= b ->
  fexp Binary32.prec Binary32.emax a <= fexp Binary32.prec Binary32.emax b.
Proof. unfold fexp. lia. Qed.

(** A shift to the right, by the amount that the magnitude asks for,
    gives a canonical mantissa. *)
Lemma shr_fexp_canonical (p : positive) (e : Z) (l : location) (q : positive) :
  e <= fexp Binary32.prec Binary32.emax (Zpos (digits2_pos p) + e) ->
  shr_m (fst (shr_fexp Binary32.prec Binary32.emax (Zpos p) e l)) = Zpos q ->
  canonical_mantissa Binary32.prec Binary32.emax q
    (snd (shr_fexp Binary32.prec Binary32.emax (Zpos p) e l)) = true.
Proof.
  intros Halign Hq.
  destruct (shr_fexp_spec p e l) as [Hsnd Hfst].
  set (r := shr_fexp Binary32.prec Binary32.emax (Zpos p) e l) in *.
  unfold fexp, emin, Binary32.prec, Binary32.emax in Halign.
  set (dp := Zpos (digits2_pos p)) in *.
  set (n := snd r - e).
  assert (Hn : 0 <= n) by (unfold n; lia).
  assert (Hpn : 0 < 2 ^ n) by (apply pow2_pos; exact Hn).
  pose proof (digits2_pos_bounds p) as [Dlo Dhi]. fold dp in Dlo, Dhi.
  rewrite Hq in Hfst. fold n in Hfst.
  assert (Hpge : 2 ^ n <= Zpos p).
  { destruct (Z.lt_ge_cases (Zpos p) (2 ^ n)) as [H|H]; [|exact H].
    rewrite Z.div_small in Hfst by lia. lia. }
  assert (Hnd : n < dp) by (apply pow2_lt_inv; lia).
  assert (Hdq : Zpos (digits2_pos q) = dp - n).
  { apply digits2_pos_unique. rewrite Hfst. split.
    - apply Z.div_le_lower_bound; [exact Hpn|].
      rewrite <- (pow2_add n (dp - n - 1)) by lia.
      replace (n + (dp - n - 1)) with (dp - 1) by lia. exact Dlo.
    - apply Z.div_lt_upper_bound; [exact Hpn|].
      rewrite <- (pow2_add n (dp - n)) by lia.
      replace (n + (dp - n)) with dp by lia. exact Dhi. }
  unfold canonical_mantissa, fexp, emin, Binary32.prec, Binary32.emax.
  apply Z.eqb_eq. rewrite Hdq. unfold n. lia.
Qed.

Lemma shr_fexp_zero (e : Z) :
  shr_m (fst (shr_fexp Binary32.prec Binary32.emax 0 e loc_Exact)) = 0.
Proof.
  unfold shr_fexp, shr. cbn [Zdigits2 shr_record_of_loc].
  destruct (fexp Binary32.prec Binary32.emax (0 + e) - e) as [|n|n];
    cbn [fst]; try reflexivity.
  destruct (iter_shr_1_m n (Build_shr_record 0 false false)) as [H _];
    [simpl; lia|].
  rewrite H. reflexivity.
Qed.

(** Rounding gives a well-formed number, when the exponent is not above
    the one that the magnitude asks for. *)
Lemma binary_round_aux_valid (s : bool) (p : positive) (e : Z) (l : location) :
  e <= fexp Binary32.prec Binary32.emax (Zpos (digits2_pos p) + e) ->
  valid_binary Binary32.prec Binary32.emax
    (binary_round_aux Binary32.prec Binary32.emax s (Zpos p) e l) = true.
Proof.
  intros Halign. unfold binary_round_aux.
  destruct (shr_fexp_spec p e l) as [Hsnd Hfst].
  destruct (shr_fexp Binary32.prec Binary32.emax (Zpos p) e l)
    as [mrs1 e1]. cbn [fst snd] in Hsnd, Hfst.
  pose proof (round_nearest_even_ge (shr_m mrs1) (loc_of_shr_record mrs1))
    as Hrne.
  set (dp := Zpos (digits2_pos p)) in *.
  assert (He1 : e1 = fexp Binary32.prec Binary32.emax (dp + e))
    by (unfold fexp, emin, Binary32.prec, Binary32.emax in *; lia).
  set (n := e1 - e) in *.
  assert (Hn : 0 <= n) by (unfold n; lia).
  assert (Hpn : 0 < 2 ^ n) by (apply pow2_pos; exact Hn).
  pose proof (digits2_pos_bounds p) as [Dlo Dhi]. fold dp in Dlo, Dhi.
  assert (Hm1 : 0 <= shr_m mrs1)
    by (rewrite Hfst; apply Z.div_pos; lia).
  destruct (round_nearest_even (shr_m mrs1) (loc_of_shr_record mrs1))
    as [|p2|p2] eqn:Hm2; [| |lia].
  - pose proof (shr_fexp_zero e1) as Hzero.
    destruct (shr_fexp Binary32.prec Binary32.emax 0 e1 loc_Exact)
      as [mrs3 e3]. cbn [fst] in Hzero. rewrite Hzero. reflexivity.
  - (* the magnitude does not shrink *)
    assert (Hmag : dp + e <= Zpos (digits2_pos p2) + e1).
    { pose proof (digits2_pos_bounds p2) as [_ D2hi].
      destruct (Z.le_gt_cases n (dp - 1)) as [Hsmall|Hbig].
      - assert (H : 2 ^ (dp - 1 - n) <= shr_m mrs1).
        { rewrite Hfst. apply Z.div_le_lower_bound; [exact Hpn|].
          rewrite <- (pow2_add n (dp - 1 - n)) by lia.
          replace (n + (dp - 1 - n)) with (dp - 1) by lia. exact Dlo. }
        assert (H' : dp - 1 - n < Zpos (digits2_pos p2))
          by (apply pow2_lt_inv; lia).
        unfold n in H'. lia.
      - unfold n in Hbig. lia. }
    assert (Halign2 :
      e1 <= fexp Binary32.prec Binary32.emax (Zpos (digits2_pos p2) + e1)).
    { rewrite He1 at 1. apply fexp_le. exact Hmag. }
    pose proof (shr_fexp_canonical p2 e1 loc_Exact) as Hcanon.
    destruct (shr_fexp Binary32.prec Binary32.emax (Zpos p2) e1 loc_Exact)
      as [mrs3 e3]. cbn [fst snd] in Hcanon.
    destruct (shr_m mrs3) as [|q|q]; try reflexivity.
    destruct (e3 <=? Binary32.emax - Binary32.prec) eqn:Hbound;
      [|reflexivity].
    cbn [valid_binary]. unfold bounded.
    rewrite (Hcanon q Halign2 eq_refl), Hbound. reflexivity.
Qed.

Lemma binary_round_valid (s : bool) (p : positive) (e : Z) :
  valid_binary Binary32.prec Binary32.emax
    (binary_round Binary32.prec Binary32.emax s p e) = true.
Proof.
  unfold binary_round.
  set (target := fexp Binary32.prec Binary32.emax
                   (Zpos (digits2_pos p) + e)).
  destruct (shl_align_spec p e target) as [Hse Hsm].
  destruct (shl_align p e target) as [mz ez]. cbn [fst snd] in Hse, Hsm.
  apply binary_round_aux_valid.
  assert (Hd : Zpos (digits2_pos mz) = Zpos (digits2_pos p) + (e - ez)).
  { pose proof (digits2_pos_bounds p) as [Dlo Dhi].
    assert (0 < 2 ^ (e - ez)) by (apply pow2_pos; lia).
    apply digits2_pos_unique. rewrite Hsm. split.
    - replace (Zpos (digits2_pos p) + (e - ez) - 1)
        with (Zpos (digits2_pos p) - 1 + (e - ez)) by lia.
      rewrite pow2_add by lia. apply Z.mul_le_mono_nonneg_r; lia.
    - rewrite pow2_add by lia. apply Z.mul_lt_mono_pos_r; lia. }
  rewrite Hd. replace (Zpos (digits2_pos p) + (e - ez) + ez)
    with (Zpos (digits2_pos p) + e) by lia.
  fold target. lia.
Qed.

Theorem add_valid (x y : Binary32.float) :
  Binary32.valid x = true -> Binary32.valid y = true ->
  Binary32.valid (Binary32.add x y) = true.
Proof.
  unfold Binary32.valid, Binary32.add. intros Hx Hy.
  destruct x as [sx|sx| |sx mx ex], y as [sy|sy| |sy my ey];
    try reflexivity; try assumption;
    try (destruct sx, sy; reflexivity).
  cbn [SFadd].
  destruct (cond_Zopp sx (Zpos (fst (shl_align mx ex (Z.min ex ey))))
            + cond_Zopp sy (Zpos (fst (shl_align my ey (Z.min ex ey)))))
    as [|p|p]; cbn [binary_normalize];
    [reflexivity|apply binary_round_valid|apply binary_round_valid].
Qed.

(** A sum that is not below a number that is not negative is not
    negative. *)
Lemma leb_zero_trans (x y : Binary32.float) :
  Binary32.leb Binary32.zero x = true -> Binary32.leb x y = true ->
  Binary32.leb Binary32.zero y = true.
Proof.
  unfold Binary32.leb, Binary32.zero.
  destruct x as [sx|[|]| |[|] mx ex]; try discriminate;
    destruct y as [sy|[|]| |[|] my ey]; try discriminate; reflexivity.
Qed.

End Binary32Addition.

(** ** Multiplication and division by one in binary32 *)

Section Binary32Exact.

(** A shift to the right of a mantissa that ends in as many zeros loses
    nothing. *)
Lemma iter_shr_1_exact (n : positive) : forall m : positive,
  SpecFloat.iter_pos shr_1 n
    (Build_shr_record (Zpos (Pos.iter xO m n)) false false)
  = Build_shr_record (Zpos m) false false.
Proof.
  induction n as [n IH|n IH|]; intros m; cbn [SpecFloat.iter_pos Pos.iter].
  - cbn [shr_1 orb]. rewrite IH, IH. reflexivity.
  - rewrite IH, IH. reflexivity.
  - reflexivity.
Qed.

(** Rounding a canonical number, given with [k] more bits of mantissa,
    gives the number. *)
Lemma binary_round_aux_exact (s : bool) (mx : positive) (ex k : Z)
    (p : positive) :
  bounded Binary32.prec Binary32.emax mx ex = true ->
  0 <= k -> Zpos p = Zpos mx * 2 ^ k ->
  binary_round_aux Binary32.prec Binary32.emax s (Zpos p) (ex - k) loc_Exact
  = S754_finite s mx ex.
Proof.
  intros Hb Hk Hp. unfold bounded in Hb. apply andb_prop in Hb as [Hc Hle].
  pose proof (canonical_exponent mx ex Hc) as Hex.
  assert (Hd : Zpos (digits2_pos p) = Zpos (digits2_pos mx) + k).
  { pose proof (digits2_pos_bounds mx) as [Dlo Dhi].
    assert (0 < 2 ^ k) by (apply pow2_pos; lia).
    apply digits2_pos_unique. rewrite Hp. split.
    - replace (Zpos (digits2_pos mx) + k - 1)
        with (Zpos (digits2_pos mx) - 1 + k) by lia.
      rewrite pow2_add by lia. apply Z.mul_le_mono_nonneg_r; lia.
    - rewrite pow2_add by lia. apply Z.mul_lt_mono_pos_r; lia. }
  assert (Hfirst :
    shr_fexp Binary32.prec Binary32.emax (Zpos p) (ex - k) loc_Exact
    = (Build_shr_record (Zpos mx) false false, ex)).
  { unfold shr_fexp, shr. cbn [Zdigits2 shr_record_of_loc]. rewrite Hd.
    replace (fexp Binary32.prec Binary32.emax
               (Zpos (digits2_pos mx) + k + (ex - k)) - (ex - k))
      with k
      by (unfold fexp, emin, Binary32.prec, Binary32.emax; lia).
    destruct k as [|kp|kp]; [| |lia].
    - rewrite Z.sub_0_r. change (2 ^ 0) with 1 in Hp.
      replace p with mx by lia. reflexivity.
    - assert (Hpm : p = Pos.iter xO mx kp).
      { apply Pos2Z.inj. change (Pos.iter xO mx kp) with (shift_pos kp mx).
        rewrite shift_pos_correct, Z.pow_pos_fold. lia. }
      rewrite Hpm, iter_shr_1_exact. f_equal. lia. }
  assert (Hsecond :
    shr_fexp Binary32.prec Binary32.emax (Zpos mx) ex loc_Exact
    = (Build_shr_record (Zpos mx) false false, ex)).
  { unfold shr_fexp, shr. cbn [Zdigits2 shr_record_of_loc].
    replace (fexp Binary32.prec Binary32.emax (Zpos (digits2_pos mx) + ex)
             - ex) with 0
      by (unfold fexp, emin, Binary32.prec, Binary32.emax; lia).
    reflexivity. }
  unfold binary_round_aux. rewrite Hfirst.
  cbn [shr_m loc_of_shr_record round_nearest_even].
  rewrite Hsecond. cbn [shr_m]. rewrite Hle. reflexivity.
Qed.

(** Multiplying and dividing a well-formed number by [1.0f] give the
    number. *)
Lemma mul_one (x : Binary32.float) :
  Binary32.valid x = true -> Binary32.mul x Binary32.one = x.
Proof.
  unfold Binary32.valid, Binary32.mul, Binary32.one. intros Hv.
  destruct x as [sx|sx| |sx mx ex]; cbn [SFmul];
    rewrite ?xorb_false_r; try reflexivity.
  cbn [valid_binary] in Hv.
  replace (ex + -23) with (ex - 23) by lia.
  apply binary_round_aux_exact; [exact Hv|lia|].
  rewrite Pos2Z.inj_mul. reflexivity.
Qed.

Lemma div_one (x : Binary32.float) :
  Binary32.valid x = true -> Binary32.div x Binary32.one = x.
Proof.
  unfold Binary32.valid, Binary32.div, Binary32.one. intros Hv.
  destruct x as [sx|sx| |sx mx ex]; cbn [SFdiv];
    rewrite ?xorb_false_r; try reflexivity.
  cbn [valid_binary] in Hv.
  pose proof Hv as Hb. unfold bounded in Hb. apply andb_prop in Hb as [Hc _].
  pose proof (canonical_exponent mx ex Hc) as Hex.
  unfold SFdiv_core_binary.
  change (Zdigits2 (Zpos 8388608)) with 24. cbn [Zdigits2].
  set (e' := Z.min
               (fexp Binary32.prec Binary32.emax
                  (Zpos (digits2_pos mx) + ex - (24 + -23)))
               (ex - -23)).
  assert (He' : ex - 1 <= e' <= ex)
    by (unfold e', fexp, emin, Binary32.prec, Binary32.emax; lia).
  set (sh := ex - -23 - e').
  assert (Hsh : 23 <= sh <= 24) by (unfold sh; lia).
  destruct sh as [|shp|shp] eqn:Hshp; try lia.
  rewrite Z.shiftl_mul_pow2 by lia. rewrite <- Hshp.
  assert (Hsplit : Zpos mx * 2 ^ sh = Zpos mx * 2 ^ (ex - e') * 8388608).
  { replace sh with ((ex - e') + 23) by (unfold sh; lia).
    rewrite pow2_add by lia. change (2 ^ 23) with 8388608. ring. }
  assert (Hq : Zpos mx * 2 ^ sh / 8388608 = Zpos mx * 2 ^ (ex - e'))
    by (rewrite Hsplit; apply Z.div_mul; lia).
  assert (Hr : (Zpos mx * 2 ^ sh) mod 8388608 = 0)
    by (rewrite Hsplit; apply Z.mod_mul; lia).
  unfold Z.div, Z.modulo in Hq, Hr.
  destruct (Z.div_eucl (Zpos mx * 2 ^ sh) 8388608) as [q r].
  subst q r. cbv [new_location new_location_even Z.even Z.eqb].
  assert (Hpos : 0 < Zpos mx * 2 ^ (ex - e'))
    by (apply Z.mul_pos_pos; [lia|apply pow2_pos; lia]).
  destruct (Zpos mx * 2 ^ (ex - e')) as [|p|p] eqn:Hp; try lia.
  replace e' with (ex - (ex - e')) at 1 by lia.
  apply binary_round_aux_exact; [exact Hv|lia|]. lia.
Qed.

End Binary32Exact.

(** ** The scoring state *)

Section ScoringProperties.

Implicit Types (s : DicNodeStateScoring) (l : DoubleLetterLevel).
Implicit Types (sp lang : float) (norm edit prox : bool).
Implicit Types (inputSize total : Z).

Lemma addDistance_spatial s sp lang norm inputSize total :
  mSpatialDistance (Scoring.addDistance s sp lang norm inputSize total)
  = Binary32.add (mSpatialDistance s) sp.
Proof. reflexivity. Qed.

Lemma addDistance_language s sp lang norm inputSize total :
  mLanguageDistance (Scoring.addDistance s sp lang norm inputSize total)
  = Binary32.add (mLanguageDistance s) lang.
Proof. reflexivity. Qed.

(** The counters and the previous-words cost are the only fields that
    [addCost] changes after [addDistance]. *)
Lemma addCost_distances s sp lang norm inputSize total edit prox :
  let s1 := Scoring.addDistance s sp lang norm inputSize total in
  let s' := Scoring.addCost s sp lang norm inputSize total edit prox in
  mSpatialDistance s' = mSpatialDistance s1
  /\ mLanguageDistance s' = mLanguageDistance s1
  /\ mNormalizedCompoundDistance s' = mNormalizedCompoundDistance s1.
Proof.
  unfold Scoring.addCost.
  destruct edit, prox, (Binary32.gtb lang Binary32.zero); repeat split.
Qed.

(** C3: after a cost addition ([addDistance], and [addCost] which goes
    through it), the normalized compound distance is the sum of the new
    spatial and language distances divided by [max(1, totalInputIndex)]
    when normalization is requested, and the sum itself when it is not. *)
Theorem normalizedCompoundDistance_after_addition
    s sp lang norm inputSize total edit prox :
  let expected (s' : DicNodeStateScoring) :=
    if norm
    then Binary32.div
           (Binary32.add (mSpatialDistance s') (mLanguageDistance s'))
           (Binary32.of_int (Z.max 1 total))
    else Binary32.add (mSpatialDistance s') (mLanguageDistance s') in
  let s1 := Scoring.addDistance s sp lang norm inputSize total in
  let s2 := Scoring.addCost s sp lang norm inputSize total edit prox in
  mNormalizedCompoundDistance s1 = expected s1
  /\ mNormalizedCompoundDistance s2 = expected s2.
Proof.
  intros expected s1 s2.
  assert (H1 : mNormalizedCompoundDistance s1 = expected s1)
    by (subst expected s1; destruct norm; reflexivity).
  split; [exact H1|].
  destruct (addCost_distances s sp lang norm inputSize total edit prox)
    as (Hs & Hl & Hn).
  fold s1 s2 in Hs, Hl, Hn.
  rewrite Hn, H1. subst expected. cbv beta. rewrite Hs, Hl. reflexivity.
Qed.

(** A sequence of [setDoubleLetterLevel] calls. *)
Lemma setDoubleLetterLevel_rank s l :
  (levelRank (mDoubleLetterLevel s)
   <= levelRank (mDoubleLetterLevel (Scoring.setDoubleLetterLevel s l)))%nat.
Proof.
  destruct s as [lv ? ? ? ? ? ? ?]; destruct l, lv; simpl; lia.
Qed.

Lemma setDoubleLetterLevels_rank (ls : list DoubleLetterLevel) : forall s,
  (levelRank (mDoubleLetterLevel s)
   <= levelRank (mDoubleLetterLevel
                   (fold_left Scoring.setDoubleLetterLevel ls s)))%nat.
Proof.
  induction ls as [|l ls IH]; intros s; simpl; [lia|].
  etransitivity; [apply (setDoubleLetterLevel_rank s l)|apply IH].
Qed.

(** C6: along every sequence of [setDoubleLetterLevel] calls, from every
    scoring state, the level never decreases (the level after a longer
    sequence is at least the level after each of its prefixes); setting
    NONE leaves the level as it is, setting WEAK gives WEAK except on
    STRONG, which stays, setting STRONG gives STRONG, and no later call
    takes STRONG away. *)
Theorem doubleLetterLevel_never_decreases :
  (forall s (before after : list DoubleLetterLevel),
      (levelRank
         (mDoubleLetterLevel (fold_left Scoring.setDoubleLetterLevel before s))
       <= levelRank
            (mDoubleLetterLevel
               (fold_left Scoring.setDoubleLetterLevel (before ++ after) s)))%nat)
  /\ (forall s, Scoring.setDoubleLetterLevel s NOT_A_DOUBLE_LETTER = s)
  /\ (forall s,
         mDoubleLetterLevel (Scoring.setDoubleLetterLevel s A_DOUBLE_LETTER)
         = match mDoubleLetterLevel s with
           | A_STRONG_DOUBLE_LETTER => A_STRONG_DOUBLE_LETTER
           | _ => A_DOUBLE_LETTER
           end)
  /\ (forall s,
         mDoubleLetterLevel
           (Scoring.setDoubleLetterLevel s A_STRONG_DOUBLE_LETTER)
         = A_STRONG_DOUBLE_LETTER)
  /\ (forall s (after : list DoubleLetterLevel),
         mDoubleLetterLevel
           (fold_left Scoring.setDoubleLetterLevel after
              (Scoring.setDoubleLetterLevel s A_STRONG_DOUBLE_LETTER))
         = A_STRONG_DOUBLE_LETTER).
Proof.
  repeat split.
  - intros s before after. rewrite fold_left_app.
    apply setDoubleLetterLevels_rank.
  - intros s. destruct s as [lv ? ? ? ? ? ? ?]; destruct lv; reflexivity.
  - intros s after.
    pose proof (setDoubleLetterLevels_rank after
                  (Scoring.setDoubleLetterLevel s A_STRONG_DOUBLE_LETTER)) as H.
    simpl in H.
    destruct (mDoubleLetterLevel (fold_left _ after _)); simpl in H;
      [lia|lia|reflexivity].
Qed.

(** Adding a non-negative number to a non-negative number gives a
    number that is not smaller, and non-negative again. *)
Lemma nonneg_add (x c : float) :
  Binary32.nonneg x = true -> Binary32.nonneg c = true ->
  Binary32.geb (Binary32.add x c) x = true
  /\ Binary32.nonneg (Binary32.add x c) = true.
Proof.
  unfold Binary32.nonneg, Binary32.geb. intros Hx Hc.
  apply andb_prop in Hx as [Hvx Hx]. apply andb_prop in Hc as [Hvc Hc].
  pose proof (add_nonneg_ge x c Hvx Hvc Hx Hc) as Hge.
  split; [exact Hge|].
  rewrite (add_valid x c Hvx Hvc). simpl andb.
  exact (leb_zero_trans x _ Hx Hge).
Qed.

(** One cost addition keeps the invariant and does not decrease the
    distances. *)
Lemma addCost_step_monotone s (c : Scoring.AddCostCall) :
  Scoring.distancesNonNegative s = true ->
  Scoring.nonNegativeCosts c = true ->
  Binary32.geb (mSpatialDistance (Scoring.callAddCost s c))
    (mSpatialDistance s) = true
  /\ Binary32.geb (mLanguageDistance (Scoring.callAddCost s c))
       (mLanguageDistance s) = true
  /\ Scoring.distancesNonNegative (Scoring.callAddCost s c) = true.
Proof.
  intros Hstate Hcosts. unfold Scoring.callAddCost.
  destruct (addCost_distances s (Scoring.acSpatialCost c)
              (Scoring.acLanguageCost c) (Scoring.acDoNormalization c)
              (Scoring.acInputSize c) (Scoring.acTotalInputIndex c)
              (Scoring.acIsEditCorrection c)
              (Scoring.acIsProximityCorrection c))
    as (Hs & Hl & _).
  rewrite addDistance_spatial in Hs. rewrite addDistance_language in Hl.
  unfold Scoring.distancesNonNegative, Scoring.nonNegativeCosts in *.
  apply andb_prop in Hstate as [Hx Hy].
  apply andb_prop in Hcosts as [Hsp Hlang].
  destruct (nonneg_add _ _ Hx Hsp) as [Hge1 Hnn1].
  destruct (nonneg_add _ _ Hy Hlang) as [Hge2 Hnn2].
  rewrite Hs, Hl, Hnn1, Hnn2. repeat split; assumption.
Qed.

Lemma addCost_history_nonNegative (history : list Scoring.AddCostCall) :
  forall s,
    Scoring.distancesNonNegative s = true ->
    forallb Scoring.nonNegativeCosts history = true ->
    Scoring.distancesNonNegative (fold_left Scoring.callAddCost history s)
    = true.
Proof.
  induction history as [|c history IH]; intros s Hs Hall; simpl;
    [exact Hs|].
  simpl in Hall. apply andb_prop in Hall as [Hc Hrest].
  apply IH; [|exact Hrest].
  apply (addCost_step_monotone s c Hs Hc).
Qed.

(** C7: for every cost addition with non-negative spatial and language
    cost arguments, the spatial distance and the language distance of the
    scoring state after the addition are each greater than or equal to
    their values before it.  The state before the addition is any state
    that cost additions with non-negative arguments make from a state
    with non-negative distances, the initial state among them; the state
    after it is such a state again. *)
Theorem addCost_distances_monotone
    (start : DicNodeStateScoring) (history : list Scoring.AddCostCall)
    (next : Scoring.AddCostCall)
    (Hstart : Scoring.distancesNonNegative start = true)
    (Hhistory : forallb Scoring.nonNegativeCosts history = true)
    (Hnext : Scoring.nonNegativeCosts next = true) :
  let s := fold_left Scoring.callAddCost history start in
  let s' :=
    Scoring.addCost s (Scoring.acSpatialCost next)
      (Scoring.acLanguageCost next) (Scoring.acDoNormalization next)
      (Scoring.acInputSize next) (Scoring.acTotalInputIndex next)
      (Scoring.acIsEditCorrection next)
      (Scoring.acIsProximityCorrection next) in
  Binary32.geb (mSpatialDistance s') (mSpatialDistance s) = true
  /\ Binary32.geb (mLanguageDistance s') (mLanguageDistance s) = true
  /\ Scoring.distancesNonNegative s' = true.
Proof.
  intros s s'.
  apply (addCost_step_monotone s next); [|exact Hnext].
  apply addCost_history_nonNegative; assumption.
Qed.

(** The theorem from the initial state: after an addition of the spatial
    cost 16777216, the addition of the costs 1 leaves the spatial distance
    as it is (the sum is rounded to it) and takes the language distance
    from 0 to 1. *)
Lemma addCost_distances_monotone_witness :
  let s := Scoring.callAddCost Scoring.init Scenario.largeCost in
  let s' := Scoring.callAddCost s Scenario.unitCost in
  Scoring.distancesNonNegative Scoring.init = true
  /\ Scoring.nonNegativeCosts Scenario.largeCost = true
  /\ Scoring.nonNegativeCosts Scenario.unitCost = true
  /\ Binary32.geb (mSpatialDistance s') (mSpatialDistance s) = true
  /\ Binary32.geb (mLanguageDistance s') (mLanguageDistance s) = true
  /\ mSpatialDistance s' = mSpatialDistance s
  /\ mLanguageDistance s' = Binary32.one.
Proof.
  intros s s'.
  destruct (addCost_distances_monotone Scoring.init [Scenario.largeCost]
              Scenario.unitCost eq_refl eq_refl eq_refl) as (H1 & H2 & _).
  split; [reflexivity|]. split; [reflexivity|]. split; [reflexivity|].
  split; [exact H1|]. split; [exact H2|].
  split; vm_compute; reflexivity.
Defined.

Lemma addCost_editCorrectionCount s sp lang norm inputSize total edit prox :
  mEditCorrectionCount
    (Scoring.addCost s sp lang norm inputSize total edit prox)
  = if edit then wrap16 (mEditCorrectionCount s + 1)
    else mEditCorrectionCount s.
Proof.
  unfold Scoring.addCost.
  destruct edit, prox, (Binary32.gtb lang Binary32.zero); reflexivity.
Qed.

Lemma addCost_proximityCorrectionCount
    s sp lang norm inputSize total edit prox :
  mProximityCorrectionCount
    (Scoring.addCost s sp lang norm inputSize total edit prox)
  = if prox then wrap16 (mProximityCorrectionCount s + 1)
    else mProximityCorrectionCount s.
Proof.
  unfold Scoring.addCost.
  destruct edit, prox, (Binary32.gtb lang Binary32.zero); reflexivity.
Qed.

Lemma addCost_totalPrevWordsLanguageCost
    s sp lang norm inputSize total edit prox :
  mTotalPrevWordsLanguageCost
    (Scoring.addCost s sp lang norm inputSize total edit prox)
  = if Binary32.gtb lang Binary32.zero
    then Binary32.add (mTotalPrevWordsLanguageCost s) lang
    else mTotalPrevWordsLanguageCost s.
Proof.
  unfold Scoring.addCost.
  destruct edit, prox, (Binary32.gtb lang Binary32.zero); reflexivity.
Qed.

(** C10, as stated, fails where a counter is at [INT16_MAX], the state
    that 32767 calls of [addCost] with both correction flags reach from
    the initial state: the [int16_t] increment wraps to [INT16_MIN], so
    the count does not increase by one although the flag is set. *)
Lemma addCost_counter_wraps_at_int16_max :
  let s := Scenario.saturatedScoring in
  let s' := Scoring.addCost s Binary32.zero Binary32.zero false 0 0 true true in
  Pos.iter
    (fun s => Scoring.addCost s Binary32.zero Binary32.zero false 0 0 true true)
    Scoring.init 32767
  = s
  /\ mEditCorrectionCount s = 32767
  /\ mEditCorrectionCount s' = -32768
  /\ mProximityCorrectionCount s' = -32768
  /\ ~ (mEditCorrectionCount s' = mEditCorrectionCount s + 1 <-> true = true).
Proof.
  vm_compute. repeat split; try reflexivity.
  intros [_ H]. specialize (H eq_refl). discriminate H.
Qed.

(** C10, amended: for every call of [addCost] on a scoring state whose
    counters are [int16_t] values, the edit (proximity) correction count
    becomes the [int16_t] successor of its old value when the edit
    (proximity) flag is set and stays as it is otherwise; below
    [INT16_MAX] it increases by exactly 1 iff the flag is set, at
    [INT16_MAX] a set flag wraps it to [INT16_MIN]; and the previous-words
    language cost becomes its old value plus the language cost when that
    cost is strictly positive, and stays as it is otherwise. *)
Theorem addCost_counters_and_prev_words_cost
    s sp lang norm inputSize total edit prox
    (Hedit : in_int16 (mEditCorrectionCount s))
    (Hprox : in_int16 (mProximityCorrectionCount s)) :
  let s' := Scoring.addCost s sp lang norm inputSize total edit prox in
  (mEditCorrectionCount s'
   = if edit then wrap16 (mEditCorrectionCount s + 1)
     else mEditCorrectionCount s)
  /\ (mEditCorrectionCount s < INT16_MAX ->
      (mEditCorrectionCount s' = mEditCorrectionCount s + 1 <-> edit = true))
  /\ (mEditCorrectionCount s = INT16_MAX -> edit = true ->
      mEditCorrectionCount s' = INT16_MIN)
  /\ (mProximityCorrectionCount s'
      = if prox then wrap16 (mProximityCorrectionCount s + 1)
        else mProximityCorrectionCount s)
  /\ (mProximityCorrectionCount s < INT16_MAX ->
      (mProximityCorrectionCount s' = mProximityCorrectionCount s + 1
       <-> prox = true))
  /\ (mProximityCorrectionCount s = INT16_MAX -> prox = true ->
      mProximityCorrectionCount s' = INT16_MIN)
  /\ (mTotalPrevWordsLanguageCost s'
      = if Binary32.gtb lang Binary32.zero
        then Binary32.add (mTotalPrevWordsLanguageCost s) lang
        else mTotalPrevWordsLanguageCost s)
  /\ in_int16 (mEditCorrectionCount s')
  /\ in_int16 (mProximityCorrectionCount s').
Proof.
  intros s'. subst s'.
  rewrite addCost_editCorrectionCount, addCost_proximityCorrectionCount,
    addCost_totalPrevWordsLanguageCost.
  unfold in_int16, INT16_MIN, INT16_MAX in *.
  assert (Hw : forall z, -32768 <= z <= 32767 ->
                 (z < 32767 -> wrap16 (z + 1) = z + 1)
                 /\ (z = 32767 -> wrap16 (z + 1) = -32768)
                 /\ -32768 <= wrap16 (z + 1) <= 32767).
  { intros z Hz. unfold wrap16. repeat split.
    - intros Hlt. rewrite Z.mod_small by lia. lia.
    - intros ->. reflexivity.
    - pose proof (Z.mod_pos_bound (z + 1 + 32768) 65536 ltac:(lia)). lia.
    - pose proof (Z.mod_pos_bound (z + 1 + 32768) 65536 ltac:(lia)). lia. }
  destruct (Hw _ Hedit) as (He1 & He2 & He3).
  destruct (Hw _ Hprox) as (Hp1 & Hp2 & Hp3).
  split; [reflexivity|].
  split.
  { intros Hlt. destruct edit.
    - rewrite He1 by exact Hlt. split; reflexivity.
    - split; [lia|discriminate]. }
  split; [intros Hmax ->; auto|].
  split; [reflexivity|].
  split.
  { intros Hlt. destruct prox.
    - rewrite Hp1 by exact Hlt. split; reflexivity.
    - split; [lia|discriminate]. }
  split; [intros Hmax ->; auto|].
  split; [reflexivity|].
  split; [destruct edit; lia|destruct prox; lia].
Qed.

(** The theorem at the initial state, with both flags and a language
    cost of one. *)
Lemma addCost_counters_and_prev_words_cost_witness :
  let s' :=
    Scoring.addCost Scoring.init Binary32.zero Binary32.one true 1 1
      true true in
  mEditCorrectionCount s' = 1 /\ mProximityCorrectionCount s' = 1
  /\ mTotalPrevWordsLanguageCost s' = Binary32.one.
Proof.
  destruct (addCost_counters_and_prev_words_cost Scoring.init Binary32.zero
              Binary32.one true 1 1 true true)
    as (He & _ & _ & Hp & _ & _ & Ht & _).
  - unfold in_int16, INT16_MIN, INT16_MAX. simpl. lia.
  - unfold in_int16, INT16_MIN, INT16_MAX. simpl. lia.
  - cbv zeta. rewrite He, Hp, Ht. vm_compute. repeat split.
Defined.

End ScoringProperties.

(** ** The scoring state: how the operations compose *)

Section ScoringComposition.

Implicit Types (s : DicNodeStateScoring) (l : DoubleLetterLevel).
Implicit Types (sp lang : float) (norm edit prox : bool).
Implicit Types (inputSize total : Z).

Lemma ltb_true_leb_true (x y : float) :
  Binary32.ltb x y = true -> Binary32.leb x y = true.
Proof.
  unfold Binary32.ltb, Binary32.leb, SFltb, SFleb.
  destruct (SFcompare x y) as [[ | | ]|]; congruence.
Qed.

Lemma nonneg_geb_refl (x : float) :
  Binary32.nonneg x = true -> Binary32.geb x x = true.
Proof.
  unfold Binary32.nonneg, Binary32.geb, Binary32.zero.
  intros H. apply andb_prop in H as [_ H].
  destruct x as [sx|[|]| |[|] mx ex]; try discriminate H; try reflexivity.
  unfold SFleb, SFcompare. rewrite Z.compare_refl.
  change (Pos.compare_cont Eq mx mx) with (Pos.compare mx mx).
  rewrite Pos.compare_refl. reflexivity.
Qed.

(** X1: [getCompoundDistance()], which multiplies the language distance
    by the weight [1.0f], is the sum of the spatial distance and the
    language distance: the multiplication is exact on every binary32
    number. *)
Theorem getCompoundDistance_is_sum s
    (Hlang : Binary32.valid (mLanguageDistance s) = true) :
  Scoring.getCompoundDistance s
  = Binary32.add (mSpatialDistance s) (mLanguageDistance s).
Proof.
  unfold Scoring.getCompoundDistance, Scoring.getCompoundDistanceWeighted.
  rewrite (mul_one _ Hlang). reflexivity.
Qed.

Lemma getCompoundDistance_is_sum_witness :
  Scoring.getCompoundDistance
    (Scoring.callAddCost Scoring.init Scenario.unitCost)
  = Binary32.of_int 2.
Proof.
  rewrite (getCompoundDistance_is_sum
             (Scoring.callAddCost Scoring.init Scenario.unitCost));
    reflexivity.
Defined.

(** X2: after a cost addition without normalization, on well-formed
    distances and costs, the normalized compound distance (the key of the
    heaps) is the compound distance of the state. *)
Theorem unnormalized_key_is_compound_distance
    s sp lang inputSize total edit prox
    (Hs : Binary32.valid (mLanguageDistance s) = true)
    (Hlang : Binary32.valid lang = true) :
  let s' := Scoring.addCost s sp lang false inputSize total edit prox in
  Scoring.getNormalizedCompoundDistance s' = Scoring.getCompoundDistance s'.
Proof.
  intros s'.
  destruct (addCost_distances s sp lang false inputSize total edit prox)
    as (Hsp' & Hlang' & Hnorm).
  fold s' in Hsp', Hlang', Hnorm.
  unfold Scoring.getNormalizedCompoundDistance, Scoring.getCompoundDistance,
    Scoring.getCompoundDistanceWeighted.
  rewrite Hnorm, Hsp', Hlang'.
  rewrite addDistance_spatial, addDistance_language.
  rewrite (mul_one _ (add_valid _ _ Hs Hlang)). reflexivity.
Qed.

Lemma unnormalized_key_is_compound_distance_witness :
  let s' :=
    Scoring.addCost Scoring.init Binary32.one Binary32.one false 3 2
      false false in
  Scoring.getNormalizedCompoundDistance s' = Binary32.of_int 2
  /\ Scoring.getCompoundDistance s' = Binary32.of_int 2.
Proof.
  intros s'.
  pose proof (unnormalized_key_is_compound_distance Scoring.init
                Binary32.one Binary32.one 3 2 false false eq_refl eq_refl)
    as H.
  fold s' in H. rewrite <- H. split; reflexivity.
Defined.

(** X3: with normalization and a total input index of at most 1 (0 and
    negative indices among them), [max(1, totalInputIndex)] makes the
    divisor [1.0f]: the normalized compound distance is the sum of the
    two distances, not a quotient by zero. *)
Theorem normalization_guard_at_small_index
    s sp lang inputSize total edit prox
    (Htotal : total <= 1)
    (Hs1 : Binary32.valid (mSpatialDistance s) = true)
    (Hs2 : Binary32.valid (mLanguageDistance s) = true)
    (Hsp : Binary32.valid sp = true)
    (Hlang : Binary32.valid lang = true) :
  let s' := Scoring.addCost s sp lang true inputSize total edit prox in
  mNormalizedCompoundDistance s'
  = Binary32.add (mSpatialDistance s') (mLanguageDistance s').
Proof.
  intros s'.
  destruct (addCost_distances s sp lang true inputSize total edit prox)
    as (Hsp' & Hlang' & Hnorm).
  fold s' in Hsp', Hlang', Hnorm.
  rewrite Hnorm, Hsp', Hlang'.
  rewrite addDistance_spatial, addDistance_language.
  unfold Scoring.addDistance. cbn [mNormalizedCompoundDistance negb].
  rewrite Z.max_l by exact Htotal.
  change (Binary32.of_int 1) with Binary32.one.
  apply div_one. apply add_valid; apply add_valid; assumption.
Qed.

Lemma normalization_guard_at_small_index_witness :
  let s' :=
    Scoring.addCost Scoring.init Binary32.one Binary32.one true 3 0
      false false in
  mNormalizedCompoundDistance s' = Binary32.of_int 2.
Proof.
  intros s'.
  pose proof (normalization_guard_at_small_index Scoring.init Binary32.one
                Binary32.one 3 0 false false ltac:(lia) eq_refl eq_refl
                eq_refl eq_refl) as H.
  fold s' in H. rewrite H. reflexivity.
Defined.

(** X4: [addCost] never decreases the total language cost of the previous
    words, whatever the language cost is (negative, zero or NaN costs are
    not added), and keeps it non-negative. *)
Theorem totalPrevWordsLanguageCost_never_decreases
    s sp lang norm inputSize total edit prox
    (Htotal : Binary32.nonneg (mTotalPrevWordsLanguageCost s) = true)
    (Hlang : Binary32.valid lang = true) :
  let s' := Scoring.addCost s sp lang norm inputSize total edit prox in
  Binary32.geb (mTotalPrevWordsLanguageCost s')
    (mTotalPrevWordsLanguageCost s) = true
  /\ Binary32.nonneg (mTotalPrevWordsLanguageCost s') = true.
Proof.
  intros s'. subst s'. rewrite addCost_totalPrevWordsLanguageCost.
  destruct (Binary32.gtb lang Binary32.zero) eqn:Hgt.
  - apply nonneg_add; [exact Htotal|].
    unfold Binary32.nonneg. rewrite Hlang. simpl andb.
    apply ltb_true_leb_true. exact Hgt.
  - split; [apply nonneg_geb_refl|]; exact Htotal.
Qed.

Lemma totalPrevWordsLanguageCost_never_decreases_witness :
  let negative := S754_finite true 8388608 (-23) in
  let s1 :=
    Scoring.addCost Scoring.init Binary32.zero Binary32.one false 3 1
      false false in
  let s2 := Scoring.addCost s1 Binary32.zero negative false 3 1 false false in
  mTotalPrevWordsLanguageCost s1 = Binary32.one
  /\ mTotalPrevWordsLanguageCost s2 = Binary32.one
  /\ Binary32.geb (mTotalPrevWordsLanguageCost s2)
       (mTotalPrevWordsLanguageCost s1) = true.
Proof.
  intros negative s1 s2.
  destruct (totalPrevWordsLanguageCost_never_decreases s1 Binary32.zero
              negative false 3 1 false false eq_refl eq_refl) as [H _].
  fold s2 in H. split; [reflexivity|]. split; [reflexivity|exact H].
Defined.

(** X5: [addRawLength] with a non-negative length never decreases the raw
    length, keeps it non-negative, and changes no other field. *)
Theorem addRawLength_accumulates s (rawLength : float)
    (Hs : Binary32.nonneg (mRawLength s) = true)
    (Hr : Binary32.nonneg rawLength = true) :
  let s' := Scoring.addRawLength s rawLength in
  Binary32.geb (mRawLength s') (mRawLength s) = true
  /\ Binary32.nonneg (mRawLength s') = true
  /\ s' = mkScoring (mDoubleLetterLevel s) (mEditCorrectionCount s)
            (mProximityCorrectionCount s) (mNormalizedCompoundDistance s)
            (mSpatialDistance s) (mLanguageDistance s)
            (mTotalPrevWordsLanguageCost s)
            (Binary32.add (mRawLength s) rawLength).
Proof.
  intros s'. destruct (nonneg_add _ _ Hs Hr) as [H1 H2].
  split; [exact H1|]. split; [exact H2|reflexivity].
Qed.

Lemma addRawLength_accumulates_witness :
  mRawLength
    (Scoring.addRawLength (Scoring.addRawLength Scoring.init Binary32.one)
       Binary32.one)
  = Binary32.of_int 2
  /\ Binary32.geb
       (mRawLength (Scoring.addRawLength Scoring.init Binary32.one))
       (mRawLength Scoring.init) = true.
Proof.
  split; [reflexivity|].
  apply (addRawLength_accumulates Scoring.init Binary32.one eq_refl eq_refl).
Defined.

(** X6: after any sequence of [setDoubleLetterLevel] calls the level is
    the strongest of the level before and the levels set, in whatever
    order they were set; two calls commute, and a call made twice is the
    call made once. *)
Theorem doubleLetterLevel_is_strongest_set :
  (forall s (ls : list DoubleLetterLevel),
      levelRank
        (mDoubleLetterLevel (fold_left Scoring.setDoubleLetterLevel ls s))
      = fold_left Nat.max (map levelRank ls)
          (levelRank (mDoubleLetterLevel s)))
  /\ (forall s l l',
         Scoring.setDoubleLetterLevel (Scoring.setDoubleLetterLevel s l) l'
         = Scoring.setDoubleLetterLevel (Scoring.setDoubleLetterLevel s l') l)
  /\ (forall s l,
         Scoring.setDoubleLetterLevel (Scoring.setDoubleLetterLevel s l) l
         = Scoring.setDoubleLetterLevel s l).
Proof.
  assert (Hstep : forall s l,
    levelRank (mDoubleLetterLevel (Scoring.setDoubleLetterLevel s l))
    = Nat.max (levelRank (mDoubleLetterLevel s)) (levelRank l)).
  { intros [lv ? ? ? ? ? ? ?] l. destruct lv, l; reflexivity. }
  split; [|split].
  - intros s ls. revert s.
    induction ls as [|l ls IH]; intros s; simpl; [reflexivity|].
    rewrite IH, Hstep. reflexivity.
  - intros [lv ? ? ? ? ? ? ?] l l'. destruct lv, l, l'; reflexivity.
  - intros [lv ? ? ? ? ? ? ?] l. destruct lv, l; reflexivity.
Qed.

(** The counters along a history, as long as they stay [int16_t]
    values. *)
Lemma counters_along_history (history : list Scoring.AddCostCall) :
  forall s,
    INT16_MIN <= mEditCorrectionCount s ->
    INT16_MIN <= mProximityCorrectionCount s ->
    mEditCorrectionCount s + Z.of_nat (editCorrections history) <= INT16_MAX ->
    mProximityCorrectionCount s + Z.of_nat (proximityCorrections history)
    <= INT16_MAX ->
    mEditCorrectionCount (fold_left Scoring.callAddCost history s)
    = mEditCorrectionCount s + Z.of_nat (editCorrections history)
    /\ mProximityCorrectionCount (fold_left Scoring.callAddCost history s)
       = mProximityCorrectionCount s
         + Z.of_nat (proximityCorrections history).
Proof.
  unfold INT16_MIN, INT16_MAX.
  induction history as [|c history IH]; intros s He Hp Hemax Hpmax;
    cbn [fold_left editCorrections proximityCorrections] in *; [lia|].
  assert (Hw : forall z, -32768 <= z < 32767 -> wrap16 (z + 1) = z + 1).
  { intros z Hz. unfold wrap16. rewrite Z.mod_small by lia. lia. }
  assert (He1 : mEditCorrectionCount (Scoring.callAddCost s c)
                = mEditCorrectionCount s
                  + Z.of_nat (if Scoring.acIsEditCorrection c then 1 else 0)).
  { unfold Scoring.callAddCost. rewrite addCost_editCorrectionCount.
    destruct (Scoring.acIsEditCorrection c); [|simpl; lia].
    rewrite Hw by lia. simpl. lia. }
  assert (Hp1 : mProximityCorrectionCount (Scoring.callAddCost s c)
                = mProximityCorrectionCount s
                  + Z.of_nat
                      (if Scoring.acIsProximityCorrection c then 1 else 0)).
  { unfold Scoring.callAddCost. rewrite addCost_proximityCorrectionCount.
    destruct (Scoring.acIsProximityCorrection c); [|simpl; lia].
    rewrite Hw by lia. simpl. lia. }
  destruct (IH (Scoring.callAddCost s c)) as [IHe IHp]; lia.
Qed.

(** X7: from the initial state, after a history of [addCost] calls of
    which at most 32767 set the edit correction flag and at most 32767
    the proximity correction flag, the two counters are the numbers of
    those calls. *)
Theorem counters_count_corrections (history : list Scoring.AddCostCall)
    (Hedit : Z.of_nat (editCorrections history) <= INT16_MAX)
    (Hprox : Z.of_nat (proximityCorrections history) <= INT16_MAX) :
  mEditCorrectionCount (fold_left Scoring.callAddCost history Scoring.init)
  = Z.of_nat (editCorrections history)
  /\ mProximityCorrectionCount
       (fold_left Scoring.callAddCost history Scoring.init)
     = Z.of_nat (proximityCorrections history).
Proof.
  destruct (counters_along_history history Scoring.init) as [He Hp];
    try (unfold INT16_MIN; simpl; lia);
    try (simpl; assumption).
  rewrite He, Hp. simpl. split; reflexivity.
Qed.

Lemma counters_count_corrections_witness :
  let substitution :=
    Scoring.mkAddCostCall Binary32.one Binary32.zero true 3 1 true false in
  let proximity :=
    Scoring.mkAddCostCall Binary32.one Binary32.zero true 3 2 false true in
  let s :=
    fold_left Scoring.callAddCost
      [substitution; Scenario.unitCost; proximity; substitution]
      Scoring.init in
  mEditCorrectionCount s = 2 /\ mProximityCorrectionCount s = 1.
Proof.
  intros substitution proximity s.
  destruct (counters_count_corrections
              [substitution; Scenario.unitCost; proximity; substitution])
    as [He Hp].
  - unfold INT16_MAX. simpl. lia.
  - unfold INT16_MAX. simpl. lia.
  - fold s in He, Hp. rewrite He, Hp. split; reflexivity.
Defined.

(** X8: the three mutators act on separate fields: a cost addition
    commutes with [setDoubleLetterLevel] and with [addRawLength], and
    those two commute with each other. *)
Theorem scoring_mutators_commute
    s l (rawLength : float) sp lang norm inputSize total edit prox :
  Scoring.addCost (Scoring.setDoubleLetterLevel s l) sp lang norm inputSize
    total edit prox
  = Scoring.setDoubleLetterLevel
      (Scoring.addCost s sp lang norm inputSize total edit prox) l
  /\ Scoring.addCost (Scoring.addRawLength s rawLength) sp lang norm
       inputSize total edit prox
     = Scoring.addRawLength
         (Scoring.addCost s sp lang norm inputSize total edit prox)
         rawLength
  /\ Scoring.addRawLength (Scoring.setDoubleLetterLevel s l) rawLength
     = Scoring.setDoubleLetterLevel (Scoring.addRawLength s rawLength) l.
Proof.
  destruct s as [lv e p n x y t r].
  unfold Scoring.addCost.
  destruct (Binary32.gtb lang Binary32.zero), edit, prox, lv, l;
    repeat split.
Qed.

End ScoringComposition.

(** ** The suggest driver *)

Section Binary32Order.

(** The comparison of [SpecFloat] is antisymmetric, so [x >= m] excludes
    [x < m]. *)
Lemma SFcompare_antisym (x y : spec_float) :
  SFcompare y x = option_map CompOpp (SFcompare x y).
Proof.
  destruct x as [sx|sx| |sx mx ex], y as [sy|sy| |sy my ey]; simpl;
    try reflexivity;
    try (destruct sx; reflexivity);
    try (destruct sy; reflexivity);
    try (destruct sx, sy; reflexivity).
  assert (Hm : Pos.compare_cont Eq my mx
               = CompOpp (Pos.compare_cont Eq mx my))
    by (symmetry; apply (Pos.compare_cont_antisym mx my Eq)).
  destruct sx, sy; simpl; try reflexivity.
  - rewrite (Z.compare_antisym ex ey), Hm.
    destruct (ex ?= ey); reflexivity.
  - rewrite (Z.compare_antisym ex ey), Hm.
    destruct (ex ?= ey); reflexivity.
Qed.

Lemma geb_true_ltb_false (x m : float) :
  Binary32.geb x m = true -> Binary32.ltb x m = false.
Proof.
  unfold Binary32.geb, Binary32.ltb, SFleb, SFltb.
  rewrite (SFcompare_antisym m x).
  destruct (SFcompare m x) as [[ | | ]|]; simpl; congruence.
Qed.

End Binary32Order.

Section DriverProperties.

Context {DicNode Cache : Type}.
Context {DN : DicNodeClass DicNode}.
Context {DC : DicNodesCacheClass DicNode Cache}.
Context {DU : DicNodeUtilsClass DicNode Cache}.
Context {TRAVERSAL : TraversalClass DicNode Cache}.
Context {SCORING : ScoringClass DicNode Cache}.
Context {WEIGHTING : WeightingClass DicNode Cache}.
Context {DEFS : Defines}.

Local Abbreviation Session := (DicTraverseSession Cache).

Implicit Types (s : Session) (dicNode : DicNode).


(** The two checks: [processTerminalDicNode] returns at once, and
    [processExpandedDicNode] skips its block, when the compound distance
    of the node has reached [MAX_VALUE_FOR_WEIGHTING]. *)
Lemma processExpandedDicNode_at_max s dicNode
    (Hmax : reachedMaxValueForWeighting dicNode = true) :
  Suggest.processTerminalDicNode s dicNode = s
  /\ Suggest.processExpandedDicNode s dicNode = s.
Proof.
  unfold reachedMaxValueForWeighting in Hmax.
  assert (Ht : Suggest.processTerminalDicNode s dicNode = s)
    by (unfold Suggest.processTerminalDicNode; rewrite Hmax; reflexivity).
  split; [exact Ht|].
  unfold Suggest.processExpandedDicNode.
  rewrite (geb_true_ltb_false _ _ Hmax). exact Ht.
Qed.

Lemma fold_left_fixed {A B : Type} (f : A -> B -> A) (l : list B) (a : A) :
  Forall (fun b => f a b = a) l -> fold_left f l a = a.
Proof.
  induction 1 as [|b l Hb _ IH]; simpl; [reflexivity|].
  rewrite Hb. exact IH.
Qed.

(** C5, amended: the child that an operator of the expansion has weighted
    and hands to [processExpandedDicNode] is dropped when its compound
    distance has reached [MAX_VALUE_FOR_WEIGHTING]: the session, and with
    it the terminal heap and the next-active heap of its cache, is left as
    it was, so the child is pushed into neither and no next-word node is
    made from it.  This holds of the two checks themselves and of each of
    the six operators: match, additional proximity character,
    substitution, and, when every child that they weight has reached the
    maximum, insertion, omission and transposition. *)
Theorem weighted_child_at_max_is_dropped s dicNode childDicNode :
  (reachedMaxValueForWeighting childDicNode = true ->
   Suggest.processTerminalDicNode s childDicNode = s
   /\ Suggest.processExpandedDicNode s childDicNode = s)
  /\ (reachedMaxValueForWeighting (Suggest.weightChildNode s childDicNode)
      = true ->
      Suggest.processDicNodeAsMatch s childDicNode = s)
  /\ (reachedMaxValueForWeighting
        (Suggest.weightChildNode s
           (addCostAndForwardInputIndex CT_ADDITIONAL_PROXIMITY s
              (Some dicNode) childDicNode false)) = true ->
      Suggest.processDicNodeAsAdditionalProximityChar s dicNode childDicNode
      = s)
  /\ (reachedMaxValueForWeighting
        (Suggest.weightChildNode s
           (addCostAndForwardInputIndex CT_SUBSTITUTION s (Some dicNode)
              childDicNode false)) = true ->
      Suggest.processDicNodeAsSubstitution s dicNode childDicNode = s)
  /\ (Forall
        (fun child =>
           reachedMaxValueForWeighting
             (addCostAndForwardInputIndex CT_INSERTION s (Some dicNode)
                child false) = true)
        (getProximityChildDicNodes dicNode s
           (wrap16 (getInputIndex dicNode 0) + 1) true) ->
      Suggest.processDicNodeAsInsertion s dicNode = s)
  /\ (Forall
        (fun child =>
           reachedMaxValueForWeighting
             (Suggest.weightChildNode s
                (if negb (isZeroCostOmission dicNode)
                 then addCostAndForwardInputIndex CT_OMISSION s
                        (Some dicNode) child false
                 else child)) = true)
        (getAllChildDicNodes dicNode) ->
      Suggest.processDicNodeAsOmission s dicNode = s)
  /\ (Forall
        (fun child1 =>
           Forall
             (fun child2 =>
                reachedMaxValueForWeighting
                  (addCostAndForwardInputIndex CT_TRANSPOSITION s
                     (Some child1) child2 false) = true)
             (getProximityChildDicNodes child1 s
                (wrap16 (getInputIndex dicNode 0)) false))
        (getProximityChildDicNodes dicNode s
           (wrap16 (getInputIndex dicNode 0) + 1) false) ->
      Suggest.processDicNodeAsTransposition s dicNode = s).
Proof.
  split; [apply processExpandedDicNode_at_max|].
  split; [intros H; apply (processExpandedDicNode_at_max _ _ H)|].
  split; [intros H; apply (processExpandedDicNode_at_max _ _ H)|].
  split; [intros H; apply (processExpandedDicNode_at_max _ _ H)|].
  split; [|split].
  - intros H. unfold Suggest.processDicNodeAsInsertion.
    apply fold_left_fixed. eapply Forall_impl; [exact H|].
    intros child Hc. apply (processExpandedDicNode_at_max _ _ Hc).
  - intros H. unfold Suggest.processDicNodeAsOmission.
    apply fold_left_fixed. eapply Forall_impl; [exact H|].
    intros child Hc. cbv beta zeta.
    destruct (negb (isPossibleOmissionChildNode s dicNode _));
      [reflexivity|].
    apply (processExpandedDicNode_at_max _ _ Hc).
  - intros H. unfold Suggest.processDicNodeAsTransposition.
    apply fold_left_fixed. eapply Forall_impl; [exact H|].
    intros child1 Hc1. cbv beta.
    destruct (hasChildren child1); [|reflexivity].
    apply fold_left_fixed. eapply Forall_impl; [exact Hc1|].
    intros child2 Hc2. apply (processExpandedDicNode_at_max _ _ Hc2).
Qed.

(** C4, amended: when the proximity state is in use and continuous
    suggestion is possible (input size above the threshold, prior state
    compatible), [initializeSearch] performs [continueSearch] alone when
    the commit point is 0 or the traversal policy allows partial commit
    (which resets the commit point to 0); otherwise it performs
    [setCommitPoint], takes the previous-word position from the node that
    this returns, performs [continueSearch] and marks the session
    partially committed. *)
Theorem initializeSearch_continuous s (commitPoint : Z)
    (Hused : proximityInfoState0Used s = true)
    (Hsize : Suggest.MIN_CONTINUOUS_SUGGESTION_INPUT_SIZE < sessionInputSize s)
    (Hcont : continuousSuggestionPossible s = true) :
  Suggest.initializeSearch s commitPoint
  = if allowPartialCommit || (commitPoint =? 0)
    then Suggest.onCache continueSearch s
    else
      let committed := setCommitPoint commitPoint (dicTraverseCache s) in
      Suggest.setPartiallyCommited
        (Suggest.onCache continueSearch
           (Suggest.setPrevWordPos (getPrevWordNodePos (fst committed))
              (Suggest.onCache (fun _ => snd committed) s))).
Proof.
  unfold Suggest.initializeSearch.
  rewrite Hused, Hcont. simpl negb. cbv iota.
  apply Z.ltb_lt in Hsize. rewrite Hsize. simpl andb. cbv iota.
  destruct allowPartialCommit; simpl orb; cbv iota.
  - reflexivity.
  - destruct (commitPoint =? 0); [reflexivity|].
    destruct (setCommitPoint commitPoint (dicTraverseCache s)); reflexivity.
Qed.

(** The third argument of [calculateFinalScore] for a terminal. *)
Lemma outputTerminal_scoreCalls s (lw : float) (di : Z)
    (dl : DoubleLetterLevel) (i : Z) dicNode (st : Suggest.EmitState) :
  exists distance : float,
    Suggest.scoreCalls (Suggest.outputTerminal s lw di dl i dicNode st)
    = Suggest.scoreCalls st
      ++ [(distance, sessionInputSize s,
           Suggest.isForceCommitMultiWords s dicNode
           || (Suggest.isValidWord dicNode && doesAutoCorrectValidWord))].
Proof.
  unfold Suggest.outputTerminal. eexists.
  destruct (Suggest.isValidWord dicNode);
    match goal with
    | |- context [outputShortcuts ?a ?b ?c ?d ?e] =>
        destruct (outputShortcuts a b c d e)
    end; reflexivity.
Qed.

(** C2, amended: the output loop calls [calculateFinalScore] once for
    each terminal that it reaches, best first, and the third argument of
    the call for a terminal is
    [allowPartialCommit && (partially committed || (inputSize >= 16 &&
    multiple words))], or else [valid word && doesAutoCorrectValidWord]:
    a valid word makes it true as well when the scoring policy
    auto-corrects valid words. *)
Theorem force_autocorrect_argument s (lw : float) (di : Z)
    (dl : DoubleLetterLevel) (terminals : list DicNode) :
  forall (i : Z) (st : Suggest.EmitState),
  exists reached : nat,
    map snd (Suggest.scoreCalls (Suggest.outputLoop s lw di dl i terminals st))
    = map snd (Suggest.scoreCalls st)
      ++ map (fun t =>
                (allowPartialCommit
                 && (partiallyCommited s
                     || ((16 <=? sessionInputSize s) && hasMultipleWords t)))
                || (Suggest.isValidWord t && doesAutoCorrectValidWord))
           (firstn reached terminals).
Proof.
  induction terminals as [|t rest IH]; intros i st.
  - exists 0%nat. simpl. rewrite app_nil_r. reflexivity.
  - simpl. destruct (Suggest.outputWordIndex st <? MAX_RESULTS).
    + destruct (IH (i + 1)
                  (Suggest.outputTerminal s lw di dl i t st)) as [n Hn].
      exists (S n). rewrite Hn.
      destruct (outputTerminal_scoreCalls s lw di dl i t st) as [d Hd].
      rewrite Hd, map_app, <- app_assoc. reflexivity.
    + exists 0%nat. simpl. rewrite app_nil_r. reflexivity.
Qed.

(** C8, amended: on a terminal whose probability is 0 or which is
    flagged blacklisted or not a word, the output loop does one of two
    things.  While fewer than [MAX_RESULTS] entries are written, it
    writes no word: the output index and the output arrays go unchanged
    into [outputShortcuts], which is called with the attributes of the
    terminal, and the loop goes on to the other terminals from the index
    and the arrays that this call returns.  Once [MAX_RESULTS] entries
    are written, the loop stops: neither this terminal nor a later one
    emits a word or a shortcut. *)
Theorem invalid_terminal_emits_shortcuts_only s (lw : float) (di : Z)
    (dl : DoubleLetterLevel) (i : Z) dicNode (rest : list DicNode)
    (st : Suggest.EmitState)
    (Hinvalid : getProbability dicNode = 0
                \/ isBlacklistedOrNotAWord
                     (Suggest.terminalAttributesOf dicNode) = true) :
  let distance :=
    Binary32.add (Suggest.getCompoundDistanceWeighted dicNode lw)
      (getDoubleLetterDemotionDistanceCost i di dl) in
  let force := Suggest.isForceCommitMultiWords s dicNode in
  let finalScore := calculateFinalScore distance (sessionInputSize s) force in
  let shortcuts :=
    outputShortcuts (Suggest.terminalAttributesOf dicNode)
      (Suggest.outputWordIndex st) finalScore (Suggest.emitted st)
      (sameAsTyped s dicNode) in
  Suggest.isValidWord dicNode = false
  /\ Suggest.outputLoop s lw di dl i (dicNode :: rest) st
     = if Suggest.outputWordIndex st <? MAX_RESULTS
       then
         Suggest.outputLoop s lw di dl (i + 1) rest
           (Suggest.mkEmitState (fst shortcuts)
              (Z.max (Suggest.maxScore st) finalScore) (snd shortcuts)
              (Suggest.scoreCalls st
               ++ [(distance, sessionInputSize s, force)]))
       else st.
Proof.
  intros distance force finalScore shortcuts.
  assert (Hv : Suggest.isValidWord dicNode = false).
  { unfold Suggest.isValidWord. destruct Hinvalid as [-> | ->].
    - reflexivity.
    - apply andb_false_r. }
  split; [exact Hv|].
  cbn [Suggest.outputLoop].
  destruct (Suggest.outputWordIndex st <? MAX_RESULTS); [|reflexivity].
  f_equal. subst shortcuts finalScore force distance.
  unfold Suggest.outputTerminal. rewrite Hv.
  simpl andb. rewrite andb_false_r, orb_false_r. cbv iota.
  destruct (outputShortcuts _ _ _ _ _). reflexivity.
Qed.


Lemma searchLoop_step (fuel : nat) (inputSize : Z) s
    (Hactive : 0 < activeSize (dicTraverseCache s)) :
  Suggest.searchLoop (S fuel) inputSize s
  = match Suggest.expandCurrentDicNodes fuel s with
    | None => None
    | Some s1 =>
        Suggest.searchLoop fuel inputSize
          (Suggest.onCache (advanceInputIndex inputSize)
             (Suggest.onCache advanceActiveDicNodes s1))
    end.
Proof.
  simpl. apply Z.ltb_lt in Hactive. rewrite Hactive. reflexivity.
Qed.

Lemma searchLoop_done (fuel : nat) (inputSize : Z) s
    (Hactive : activeSize (dicTraverseCache s) <= 0) :
  Suggest.searchLoop fuel inputSize s = Some s.
Proof.
  assert (H : (0 <? activeSize (dicTraverseCache s)) = false)
    by (apply Z.ltb_ge; exact Hactive).
  destruct fuel; simpl; rewrite H; reflexivity.
Qed.

(** The loop of [expandCurrentDicNodes] stops at the first popped node
    that is over the limit: it returns with the rest of the frontier
    neither popped nor expanded. *)
Lemma expandLoop_returns_at_limit (fuel : nat) (cached : bool) s
    (Hactive : 0 < activeSize (dicTraverseCache s))
    (Hlimit : isTotalInputSizeExceedingLimit
                (fst (popActive (dicTraverseCache s))) = true) :
  Suggest.expandLoop (S fuel) cached s
  = Some (Suggest.onCache (fun _ => snd (popActive (dicTraverseCache s))) s).
Proof.
  simpl. apply Z.ltb_lt in Hactive. rewrite Hactive.
  destruct (popActive (dicTraverseCache s)) as [n c]. simpl in Hlimit.
  rewrite Hlimit. reflexivity.
Qed.

End DriverProperties.

(** ** The driver: what the expansion and the output do to the session *)

Section DriverInvariants.

Context {DicNode Cache : Type}.
Context {DN : DicNodeClass DicNode}.
Context {DC : DicNodesCacheClass DicNode Cache}.
Context {DU : DicNodeUtilsClass DicNode Cache}.
Context {TRAVERSAL : TraversalClass DicNode Cache}.
Context {SCORING : ScoringClass DicNode Cache}.
Context {WEIGHTING : WeightingClass DicNode Cache}.
Context {DEFS : Defines}.

Local Abbreviation Session := (DicTraverseSession Cache).

Implicit Types (s : Session) (dicNode : DicNode).

Lemma sameSessionData_refl s : sameSessionData s s.
Proof. repeat split. Qed.

Lemma sameSessionData_trans s1 s2 s3 :
  sameSessionData s1 s2 -> sameSessionData s2 s3 -> sameSessionData s1 s3.
Proof.
  unfold sameSessionData.
  intros (A1 & A2 & A3 & A4 & A5 & A6) (B1 & B2 & B3 & B4 & B5 & B6).
  repeat split; congruence.
Qed.

Lemma sameSessionData_onCache (f : Cache -> Cache) s :
  sameSessionData s (Suggest.onCache f s).
Proof. repeat split. Qed.

Lemma pushesOnly_trans s1 s2 s3 :
  pushesOnly s1 s2 -> pushesOnly s2 s3 -> pushesOnly s1 s3.
Proof.
  intros H12 H23. induction H23; [exact H12| | |];
    constructor; apply IHpushesOnly; exact H12.
Qed.

Lemma pushesOnly_sameSessionData s s' :
  pushesOnly s s' -> sameSessionData s s'.
Proof.
  induction 1 as [s|s s' n H IH|s s' n H IH|s s' n H IH];
    [apply sameSessionData_refl| | |];
    (eapply sameSessionData_trans;
     [exact IH|apply sameSessionData_onCache]).
Qed.

Lemma fold_left_pushesOnly (f : Session -> DicNode -> Session)
    (Hf : forall s n, pushesOnly s (f s n)) (l : list DicNode) :
  forall s, pushesOnly s (fold_left f l s).
Proof.
  induction l as [|n l IH]; intros s; simpl; [constructor|].
  eapply pushesOnly_trans; [apply Hf|apply IH].
Qed.

Lemma createNextWordDicNode_pushesOnly s dicNode (spaceSubstitution : bool) :
  pushesOnly s (Suggest.createNextWordDicNode s dicNode spaceSubstitution).
Proof.
  unfold Suggest.createNextWordDicNode.
  destruct (isGoodToTraverseNextWord dicNode); simpl.
  - apply pushes_next_active. constructor.
  - constructor.
Qed.

Lemma processTerminalDicNode_pushesOnly s dicNode :
  pushesOnly s (Suggest.processTerminalDicNode s dicNode).
Proof.
  unfold Suggest.processTerminalDicNode.
  repeat match goal with
         | |- pushesOnly _ (if ?b then _ else _) => destruct b
         end;
    try constructor.
  apply pushes_none.
Qed.

Lemma processExpandedDicNode_pushesOnly s dicNode :
  pushesOnly s (Suggest.processExpandedDicNode s dicNode).
Proof.
  unfold Suggest.processExpandedDicNode.
  pose proof (processTerminalDicNode_pushesOnly s dicNode) as H1.
  set (s1 := Suggest.processTerminalDicNode s dicNode) in *.
  destruct (Binary32.ltb _ _); [|exact H1].
  assert (H2 : pushesOnly s
                 (if isSpaceOmissionTerminal s1 dicNode
                  then Suggest.createNextWordDicNode s1 dicNode false
                  else s1)).
  { destruct (isSpaceOmissionTerminal s1 dicNode); [|exact H1].
    eapply pushesOnly_trans;
      [exact H1|apply createNextWordDicNode_pushesOnly]. }
  cbv zeta.
  destruct (hasChildren dicNode && _); [|exact H2].
  apply pushes_next_active. exact H2.
Qed.

Lemma processDicNodeAsMatch_pushesOnly s dicNode :
  pushesOnly s (Suggest.processDicNodeAsMatch s dicNode).
Proof. apply processExpandedDicNode_pushesOnly. Qed.

Lemma processDicNodeAsOmission_pushesOnly s dicNode :
  pushesOnly s (Suggest.processDicNodeAsOmission s dicNode).
Proof.
  unfold Suggest.processDicNodeAsOmission.
  apply fold_left_pushesOnly. intros s0 n. cbv zeta.
  destruct (negb (isPossibleOmissionChildNode _ _ _));
    [constructor|apply processExpandedDicNode_pushesOnly].
Qed.

Lemma processDicNodeAsInsertion_pushesOnly s dicNode :
  pushesOnly s (Suggest.processDicNodeAsInsertion s dicNode).
Proof.
  unfold Suggest.processDicNodeAsInsertion.
  apply fold_left_pushesOnly. intros s0 n.
  apply processExpandedDicNode_pushesOnly.
Qed.

Lemma processDicNodeAsTransposition_pushesOnly s dicNode :
  pushesOnly s (Suggest.processDicNodeAsTransposition s dicNode).
Proof.
  unfold Suggest.processDicNodeAsTransposition.
  apply fold_left_pushesOnly. intros s0 n.
  destruct (hasChildren n); [|constructor].
  apply fold_left_pushesOnly. intros s1 n2.
  apply processExpandedDicNode_pushesOnly.
Qed.

Lemma expandChild_pushesOnly (completion corrections : bool) dicNode s
    (childDicNode : DicNode) :
  pushesOnly s
    (Suggest.expandChild completion corrections dicNode s childDicNode).
Proof.
  unfold Suggest.expandChild.
  destruct completion; [apply processExpandedDicNode_pushesOnly|].
  assert (H1 : pushesOnly s
                 (if corrections && isOmission s dicNode childDicNode
                  then Suggest.processDicNodeAsOmission s
                         (initByCopy childDicNode)
                  else s)).
  { destruct (corrections && _);
      [apply processDicNodeAsOmission_pushesOnly|constructor]. }
  cbv zeta.
  destruct (getProximityType _ dicNode childDicNode);
    try exact H1;
    try (eapply pushesOnly_trans;
         [exact H1|apply processExpandedDicNode_pushesOnly]);
    (destruct corrections; [|exact H1]);
    (eapply pushesOnly_trans;
     [exact H1|apply processExpandedDicNode_pushesOnly]).
Qed.

Lemma expansion_of_a_node_only_pushes_aux (cached : bool) s dicNode :
  pushesOnly s (Suggest.expandDicNode cached s dicNode)
  /\ sameSessionData s (Suggest.expandDicNode cached s dicNode).
Proof.
  assert (H : pushesOnly s (Suggest.expandDicNode cached s dicNode)).
  { unfold Suggest.expandDicNode. cbv zeta.
    destruct (cached || shouldNodeLevelCache s dicNode).
    - assert (H1 : pushesOnly s (Suggest.onCache (copyPushContinue dicNode) s))
        by (apply pushes_continue; constructor).
      destruct (canDoLookAheadCorrection s dicNode && _).
      + eapply pushesOnly_trans; [exact H1|].
        unfold Suggest.CORRECT_TRANSPOSITION, Suggest.CORRECT_INSERTION.
        eapply pushesOnly_trans;
          [apply processDicNodeAsTransposition_pushesOnly
          |apply processDicNodeAsInsertion_pushesOnly].
      + eapply pushesOnly_trans; [exact H1|].
        match goal with
        | |- pushesOnly ?a (if ?b then Suggest.onCache ?f ?x else ?x) =>
            assert (H2 : pushesOnly a x)
        end.
        { eapply pushesOnly_trans;
            [|apply fold_left_pushesOnly; intros;
              apply expandChild_pushesOnly].
          destruct (allowsErrorCorrections _ && _);
            [apply createNextWordDicNode_pushesOnly|constructor]. }
        destruct (allowsErrorCorrections _ && canDoLookAheadCorrection _ _);
          [apply pushes_next_active|]; exact H2.
    - destruct (canDoLookAheadCorrection s dicNode && _).
      + unfold Suggest.CORRECT_TRANSPOSITION, Suggest.CORRECT_INSERTION.
        eapply pushesOnly_trans;
          [apply processDicNodeAsTransposition_pushesOnly
          |apply processDicNodeAsInsertion_pushesOnly].
      + match goal with
        | |- pushesOnly ?a (if ?b then Suggest.onCache ?f ?x else ?x) =>
            assert (H2 : pushesOnly a x)
        end.
        { eapply pushesOnly_trans;
            [|apply fold_left_pushesOnly; intros;
              apply expandChild_pushesOnly].
          destruct (allowsErrorCorrections _ && _);
            [apply createNextWordDicNode_pushesOnly|constructor]. }
        destruct (allowsErrorCorrections _ && canDoLookAheadCorrection _ _);
          [apply pushes_next_active|]; exact H2. }
  split; [exact H|apply pushesOnly_sameSessionData; exact H].
Qed.

Lemma expansion_data (cached : bool) s dicNode :
  sameSessionData s (Suggest.expandDicNode cached s dicNode).
Proof. apply expansion_of_a_node_only_pushes_aux. Qed.

(** X9: the expansion of one popped node only pushes: the session after
    it is the session before it with nodes pushed into the next-active
    heap, the terminal heap and the continuation cache.  It pops
    nothing, pushes nothing into the active heap, resets nothing, and
    leaves the data of the session apart from the cache as they were;
    and so do the operators on a child, whatever the node and the
    policies are. *)
Theorem expansion_of_a_node_only_pushes (cached : bool) s dicNode :
  pushesOnly s (Suggest.expandDicNode cached s dicNode)
  /\ sameSessionData s (Suggest.expandDicNode cached s dicNode)
  /\ pushesOnly s (Suggest.processExpandedDicNode s dicNode)
  /\ (forall spaceSubstitution : bool,
         pushesOnly s
           (Suggest.createNextWordDicNode s dicNode spaceSubstitution)).
Proof.
  destruct (expansion_of_a_node_only_pushes_aux cached s dicNode) as [H1 H2].
  split; [exact H1|]. split; [exact H2|].
  split; [apply processExpandedDicNode_pushesOnly|].
  intros b. apply createNextWordDicNode_pushesOnly.
Qed.

(** The expansion loop keeps the data of the session. *)
Lemma expandLoop_sameSessionData (fuel : nat) (cached : bool) :
  forall s s',
    Suggest.expandLoop fuel cached s = Some s' -> sameSessionData s s'.
Proof.
  induction fuel as [|fuel IH]; intros s s'; simpl;
    destruct (0 <? activeSize (dicTraverseCache s)); try discriminate;
    try (intros [= <-]; apply sameSessionData_refl).
  destruct (popActive (dicTraverseCache s)) as [n c].
  destruct (isTotalInputSizeExceedingLimit n).
  - intros [= <-]. apply sameSessionData_onCache.
  - intros H. apply IH in H.
    eapply sameSessionData_trans; [|exact H].
    eapply sameSessionData_trans; [apply (sameSessionData_onCache (fun _ => c))|].
    apply expansion_data.
Qed.

Lemma expandCurrentDicNodes_sameSessionData (fuel : nat) s s' :
  Suggest.expandCurrentDicNodes fuel s = Some s' -> sameSessionData s s'.
Proof.
  unfold Suggest.expandCurrentDicNodes. intros H.
  apply expandLoop_sameSessionData in H.
  eapply sameSessionData_trans; [|exact H].
  destruct (shouldDepthLevelCache s);
    [apply sameSessionData_onCache|apply sameSessionData_refl].
Qed.

Lemma searchLoop_postcondition (fuel : nat) (inputSize : Z) :
  forall s s',
    Suggest.searchLoop fuel inputSize s = Some s' ->
    activeSize (dicTraverseCache s') <= 0 /\ sameSessionData s s'.
Proof.
  induction fuel as [|fuel IH]; intros s s'; simpl;
    destruct (0 <? activeSize (dicTraverseCache s)) eqn:Hactive;
    try discriminate;
    try (intros [= <-]; apply Z.ltb_ge in Hactive;
         split; [exact Hactive|apply sameSessionData_refl]).
  destruct (Suggest.expandCurrentDicNodes fuel s) as [s1|] eqn:Hexpand;
    [|discriminate].
  intros H. apply IH in H as [Hempty Hdata]. split; [exact Hempty|].
  eapply sameSessionData_trans; [|exact Hdata].
  eapply sameSessionData_trans;
    [apply (expandCurrentDicNodes_sameSessionData _ _ _ Hexpand)|].
  eapply sameSessionData_trans; apply sameSessionData_onCache.
Qed.

(** X10: when the search loop of [getSuggestions] returns, the active
    frontier is empty, and the data of the session apart from the cache
    (input size, previous-word position, the partially-committed mark and
    the rest) are as they were before the loop. *)
Theorem search_loop_result (fuel : nat) (inputSize : Z) s s'
    (Hreturns : Suggest.searchLoop fuel inputSize s = Some s') :
  activeSize (dicTraverseCache s') <= 0 /\ sameSessionData s s'.
Proof. exact (searchLoop_postcondition fuel inputSize s s' Hreturns). Qed.

Section WithActiveSizeLaws.

Context {LAWS : ActiveSizeLaws DicNode Cache}.

Lemma pushesOnly_activeSize s s' :
  pushesOnly s s' ->
  activeSize (dicTraverseCache s') = activeSize (dicTraverseCache s).
Proof.
  induction 1 as [s|s s' n H IH|s s' n H IH|s s' n H IH];
    [reflexivity| | |]; destruct s'; simpl in *;
    [rewrite activeSize_copyPushNextActive
    |rewrite activeSize_copyPushTerminal
    |rewrite activeSize_copyPushContinue]; exact IH.
Qed.

Lemma expandLoop_terminates (cached : bool) (bound : nat) :
  forall s,
    activeSize (dicTraverseCache s) <= Z.of_nat bound ->
    exists s',
      (forall fuel, (bound <= fuel)%nat ->
                    Suggest.expandLoop fuel cached s = Some s')
      /\ activeSize (dicTraverseCache s') <= activeSize (dicTraverseCache s)
      /\ (0 <= activeSize (dicTraverseCache s) ->
          0 <= activeSize (dicTraverseCache s')).
Proof.
  induction bound as [|bound IH]; intros s Hbound.
  - exists s. split; [|lia].
    intros fuel _.
    assert (H : (0 <? activeSize (dicTraverseCache s)) = false)
      by (apply Z.ltb_ge; lia).
    destruct fuel; simpl; rewrite H; reflexivity.
  - destruct (0 <? activeSize (dicTraverseCache s)) eqn:Hactive.
    + apply Z.ltb_lt in Hactive.
      pose proof (activeSize_popActive (dicTraverseCache s) Hactive) as Hpop.
      destruct (popActive (dicTraverseCache s)) as [n c] eqn:Hn.
      cbn [snd] in Hpop.
      destruct (isTotalInputSizeExceedingLimit n) eqn:Hlimit.
      * exists (Suggest.onCache (fun _ => c) s). split.
        -- intros fuel Hfuel. destruct fuel as [|fuel]; [lia|].
           simpl. apply Z.ltb_lt in Hactive. rewrite Hactive, Hn, Hlimit.
           reflexivity.
        -- destruct s; simpl in *. lia.
      * set (s1 := Suggest.expandDicNode cached
                     (Suggest.onCache (fun _ => c) s) n).
        assert (Hsize : activeSize (dicTraverseCache s1)
                        = activeSize (dicTraverseCache s) - 1).
        { unfold s1.
          rewrite (pushesOnly_activeSize _ _
                     (proj1 (expansion_of_a_node_only_pushes_aux cached
                               (Suggest.onCache (fun _ => c) s) n))).
          destruct s; simpl in *. exact Hpop. }
        destruct (IH s1 ltac:(lia)) as (s' & Hs' & Hle & Hge).
        exists s'. split; [|lia].
        intros fuel Hfuel. destruct fuel as [|fuel]; [lia|].
        simpl. apply Z.ltb_lt in Hactive. rewrite Hactive, Hn, Hlimit.
        apply Hs'. lia.
    + exists s. split; [|lia].
      intros fuel _. destruct fuel; simpl; rewrite Hactive; reflexivity.
Qed.

(** X11: with a cache whose pops and pushes count as they should,
    [expandCurrentDicNodes] returns after at most [activeSize()]
    iterations of its loop, with the same session whatever larger bound
    it is given, and with an active frontier that has not grown. *)
Theorem expandCurrentDicNodes_terminates s :
  exists s',
    (forall fuel,
        (Z.to_nat (activeSize (dicTraverseCache s)) <= fuel)%nat ->
        Suggest.expandCurrentDicNodes fuel s = Some s')
    /\ activeSize (dicTraverseCache s') <= activeSize (dicTraverseCache s)
    /\ sameSessionData s s'.
Proof.
  unfold Suggest.expandCurrentDicNodes.
  set (s1 := if shouldDepthLevelCache s
             then Suggest.onCache updateLastCachedInputIndex s else s).
  assert (Hsize : activeSize (dicTraverseCache s1)
                  = activeSize (dicTraverseCache s)).
  { unfold s1. destruct (shouldDepthLevelCache s); [|reflexivity].
    destruct s; simpl. apply activeSize_updateLastCachedInputIndex. }
  destruct (expandLoop_terminates (shouldDepthLevelCache s)
              (Z.to_nat (activeSize (dicTraverseCache s))) s1)
    as (s' & Hs' & Hle & _); [lia|].
  exists s'. split; [exact Hs'|]. split; [lia|].
  apply (expandCurrentDicNodes_sameSessionData
           (Z.to_nat (activeSize (dicTraverseCache s)))).
  unfold Suggest.expandCurrentDicNodes. fold s1. apply Hs'. lia.
Qed.

End WithActiveSizeLaws.

End DriverInvariants.

(** ** The driver: output *)

Section DriverOutput.

Context {DicNode Cache : Type}.
Context {DN : DicNodeClass DicNode}.
Context {DC : DicNodesCacheClass DicNode Cache}.
Context {DU : DicNodeUtilsClass DicNode Cache}.
Context {TRAVERSAL : TraversalClass DicNode Cache}.
Context {SCORING : ScoringClass DicNode Cache}.
Context {WEIGHTING : WeightingClass DicNode Cache}.
Context {DEFS : Defines}.

Local Abbreviation Session := (DicTraverseSession Cache).

Implicit Types (s : Session) (dicNode : DicNode).

(** One terminal: one call of [calculateFinalScore], whose result is
    taken into the maximum. *)
Lemma outputTerminal_call s (lw : float) (di : Z) (dl : DoubleLetterLevel)
    (i : Z) dicNode (st : Suggest.EmitState) :
  exists (distance : float) (force : bool),
    Suggest.scoreCalls (Suggest.outputTerminal s lw di dl i dicNode st)
    = Suggest.scoreCalls st ++ [(distance, sessionInputSize s, force)]
    /\ Suggest.maxScore (Suggest.outputTerminal s lw di dl i dicNode st)
       = Z.max (Suggest.maxScore st)
           (calculateFinalScore distance (sessionInputSize s) force).
Proof.
  exists (Binary32.add (Suggest.getCompoundDistanceWeighted dicNode lw)
            (getDoubleLetterDemotionDistanceCost i di dl)),
    (Suggest.isForceCommitMultiWords s dicNode
     || (Suggest.isValidWord dicNode && doesAutoCorrectValidWord)).
  unfold Suggest.outputTerminal.
  destruct (Suggest.isValidWord dicNode);
    match goal with
    | |- context [outputShortcuts ?a ?b ?c ?d ?e] =>
        destruct (outputShortcuts a b c d e)
    end; split; reflexivity.
Qed.

Lemma outputLoop_calls s (lw : float) (di : Z) (dl : DoubleLetterLevel)
    (terminals : list DicNode) :
  forall (i : Z) (st : Suggest.EmitState),
  exists calls : list (float * Z * bool),
    Suggest.scoreCalls (Suggest.outputLoop s lw di dl i terminals st)
    = Suggest.scoreCalls st ++ calls
    /\ Suggest.maxScore (Suggest.outputLoop s lw di dl i terminals st)
       = fold_left Z.max
           (map (fun c => calculateFinalScore (fst (fst c)) (snd (fst c))
                            (snd c)) calls)
           (Suggest.maxScore st)
    /\ (length calls <= length terminals)%nat.
Proof.
  induction terminals as [|t rest IH]; intros i st.
  - exists []. simpl. rewrite app_nil_r. repeat split. lia.
  - simpl. destruct (Suggest.outputWordIndex st <? MAX_RESULTS).
    + destruct (outputTerminal_call s lw di dl i t st)
        as (d & b & Hcall & Hmax).
      destruct (IH (i + 1) (Suggest.outputTerminal s lw di dl i t st))
        as (calls & Hcalls & Hfold & Hlen).
      exists ((d, sessionInputSize s, b) :: calls).
      rewrite Hcalls, Hcall, <- app_assoc, Hfold, Hmax.
      simpl. repeat split. lia.
    + exists []. simpl. rewrite app_nil_r. repeat split. lia.
Qed.

Lemma popTerminals_length (n : nat) :
  forall (cache : Cache) (terminals : list DicNode),
    length (fst (Suggest.popTerminals n cache terminals))
    = (n + length terminals)%nat.
Proof.
  induction n as [|n IH]; intros cache terminals; simpl; [reflexivity|].
  destruct (popTerminal cache) as [t c]. rewrite IH. simpl. lia.
Qed.

Lemma fold_left_max_bounds (l : list Z) :
  forall a : Z,
    a <= fold_left Z.max l a
    /\ Forall (fun z => z <= fold_left Z.max l a) l.
Proof.
  induction l as [|z l IH]; intros a; simpl; [split; [lia|constructor]|].
  destruct (IH (Z.max a z)) as [Hle Hall]. split; [lia|].
  constructor; [lia|exact Hall].
Qed.

(** What [outputSuggestions] computes, in terms of the loop. *)
Lemma outputSuggestionsFull_calls s (out : Output) :
  let r := Suggest.outputSuggestionsFull s out in
  length (snd (fst r))
  = Z.to_nat (Z.min MAX_RESULTS (terminalSize (dicTraverseCache s)))
  /\ (length (Suggest.scoreCalls (fst (fst r))) <= length (snd (fst r)))%nat
  /\ Suggest.maxScore (fst (fst r))
     = fold_left Z.max
         (map (fun c => calculateFinalScore (fst (fst c)) (snd (fst c))
                          (snd c))
            (Suggest.scoreCalls (fst (fst r))))
         S_INT_MIN.
Proof.
  unfold Suggest.outputSuggestionsFull.
  pose proof (popTerminals_length
                (Z.to_nat
                   (Z.min MAX_RESULTS (terminalSize (dicTraverseCache s))))
                (dicTraverseCache s) []) as Hlen.
  destruct (Suggest.popTerminals _ (dicTraverseCache s) [])
    as [terminals cache].
  cbn [fst length] in Hlen. rewrite Nat.add_0_r in Hlen.
  destruct (getMostProbableString _ _ _ out) as [has out1].
  destruct (searchWordWithDoubleLetter terminals _ _) as [di dl].
  match goal with
  | |- context [Suggest.outputLoop ?a ?b ?c ?d ?e ?f ?g] =>
      destruct (outputLoop_calls a b c d f e g)
        as (calls & Hcalls & Hmax & Hle)
  end.
  cbn [fst snd Suggest.scoreCalls Suggest.maxScore] in *.
  rewrite Hcalls, Hmax. cbn [app]. repeat split; [exact Hlen|exact Hle].
Qed.

(** X14: [outputSuggestions] pops and scores at most [MAX_RESULTS]
    terminals: it pops [min(MAX_RESULTS, terminalSize())] of them and
    calls [calculateFinalScore] at most once for each. *)
Theorem outputSuggestions_scores_at_most_max_results s (out : Output) :
  let r := Suggest.outputSuggestionsFull s out in
  length (snd (fst r))
  = Z.to_nat (Z.min MAX_RESULTS (terminalSize (dicTraverseCache s)))
  /\ (length (Suggest.scoreCalls (fst (fst r))) <= length (snd (fst r)))%nat
  /\ (length (Suggest.scoreCalls (fst (fst r))) <= Z.to_nat MAX_RESULTS)%nat.
Proof.
  intros r. destruct (outputSuggestionsFull_calls s out) as (H1 & H2 & _).
  fold r in H1, H2. split; [exact H1|]. split; [exact H2|]. lia.
Qed.

(** X15: the maximal score that [outputSuggestions] hands to the safety
    net is the greatest of [S_INT_MIN] and of the final scores of the
    terminals that the loop has scored: it is below none of them. *)
Theorem maxScore_is_greatest_final_score s (out : Output) :
  let st := fst (fst (Suggest.outputSuggestionsFull s out)) in
  let scores :=
    map (fun c => calculateFinalScore (fst (fst c)) (snd (fst c)) (snd c))
      (Suggest.scoreCalls st) in
  Suggest.maxScore st = fold_left Z.max scores S_INT_MIN
  /\ S_INT_MIN <= Suggest.maxScore st
  /\ Forall (fun score => score <= Suggest.maxScore st) scores.
Proof.
  intros st scores.
  destruct (outputSuggestionsFull_calls s out) as (_ & _ & H).
  fold st in H. fold scores in H. rewrite H.
  destruct (fold_left_max_bounds scores S_INT_MIN) as [H1 H2].
  repeat split; assumption.
Qed.

(** X16: the output loop, on a valid word (probability above 0, neither
    blacklisted nor not a word) at an output index inside the arrays,
    writes the final score and [KIND_CORRECTION] at that index and the
    word at [index * MAX_WORD_LENGTH], writes the space positions only
    for the first entry under a policy with partial commit, and hands
    the next index to [outputShortcuts]. *)
Theorem valid_terminal_is_written s (lw : float) (di : Z)
    (dl : DoubleLetterLevel) (i : Z) dicNode (st : Suggest.EmitState)
    (Hvalid : Suggest.isValidWord dicNode = true)
    (Hfrequencies :
       (Z.to_nat (Suggest.outputWordIndex st)
        < length (frequencies (Suggest.emitted st)))%nat)
    (Htypes :
       (Z.to_nat (Suggest.outputWordIndex st)
        < length (outputTypes (Suggest.emitted st)))%nat) :
  let index := Suggest.outputWordIndex st in
  let finalScore :=
    calculateFinalScore
      (Binary32.add (Suggest.getCompoundDistanceWeighted dicNode lw)
         (getDoubleLetterDemotionDistanceCost i di dl))
      (sessionInputSize s)
      (Suggest.isForceCommitMultiWords s dicNode || doesAutoCorrectValidWord) in
  let st' := Suggest.outputTerminal s lw di dl i dicNode st in
  exists written : Output,
    (Suggest.outputWordIndex st', Suggest.emitted st')
    = outputShortcuts (Suggest.terminalAttributesOf dicNode) (index + 1)
        finalScore written (sameAsTyped s dicNode)
    /\ frequencies written !! Z.to_nat index = Some finalScore
    /\ outputTypes written !! Z.to_nat index = Some KIND_CORRECTION
    /\ outWords written
       = outputResult dicNode (index * MAX_WORD_LENGTH)
           (outWords (Suggest.emitted st))
    /\ outputIndices written
       = if allowPartialCommit && (index =? 0)
         then outputSpacePositionsResult dicNode
                (outputIndices (Suggest.emitted st))
         else outputIndices (Suggest.emitted st).
Proof.
  intros index finalScore st'. subst st' finalScore index.
  unfold Suggest.outputTerminal. rewrite Hvalid. simpl andb. cbv iota.
  destruct (allowPartialCommit && (Suggest.outputWordIndex st =? 0));
    eexists;
    (split;
      [match goal with
       | |- (Suggest.outputWordIndex (let '(_, _) := ?p in _), _) = _ =>
           transitivity p; [destruct p; reflexivity|reflexivity]
       end|]);
    cbn [frequencies outputTypes outWords outputIndices];
    (split; [apply list_lookup_insert_eq; assumption|]);
    (split; [apply list_lookup_insert_eq; assumption|]);
    split; reflexivity.
Qed.

Lemma leb_nan_r (x : float) : SFleb x S754_nan = false.
Proof. destruct x; reflexivity. Qed.

(** X17: a node whose compound distance is NaN passes the first guard
    and fails the second one: [processExpandedDicNode] does what
    [processTerminalDicNode] does and no more.  The node is pushed into
    the terminal heap when it is a terminal word that has consumed the
    input and passes the bigram filter, and it is neither pushed into the
    next-active heap nor given a next-word node. *)
Theorem nan_distance_node_is_terminal_only s dicNode
    (Hnan : Suggest.getCompoundDistance dicNode = S754_nan) :
  Suggest.processExpandedDicNode s dicNode
  = Suggest.processTerminalDicNode s dicNode
  /\ Suggest.processTerminalDicNode s dicNode
     = if isTerminalWordNode dicNode
          && negb (needsToTraverseAllUserInput
                   && (getInputIndex dicNode 0 <? sessionInputSize s))
          && negb (shouldBeFilterdBySafetyNetForBigram dicNode)
       then Suggest.onCache
              (copyPushTerminal
                 (addCostAndForwardInputIndex CT_TERMINAL s None
                    (utilsInitByCopy dicNode) true)) s
       else s.
Proof.
  unfold Suggest.processExpandedDicNode, Suggest.processTerminalDicNode.
  rewrite Hnan. unfold Binary32.geb, Binary32.ltb.
  rewrite leb_nan_r. cbn [SFltb SFcompare]. split; [reflexivity|].
  destruct (isTerminalWordNode dicNode); [|reflexivity].
  destruct (needsToTraverseAllUserInput && _); [reflexivity|].
  destruct (shouldBeFilterdBySafetyNetForBigram dicNode); reflexivity.
Qed.

Lemma outputSuggestions_sameSessionData s (out : Output) :
  sameSessionData s (snd (Suggest.outputSuggestions s out)).
Proof.
  unfold Suggest.outputSuggestions, Suggest.outputSuggestionsFull.
  destruct (Suggest.popTerminals _ (dicTraverseCache s) [])
    as [terminals cache].
  destruct (getMostProbableString _ _ _ out) as [has out1].
  destruct (searchWordWithDoubleLetter terminals _ _) as [di dl].
  repeat split.
Qed.

(** X18: a call of [getSuggestions] that returns leaves the data of the
    session apart from the cache (input size, previous-word position,
    the partially-committed mark and the rest) as [initializeSearch] has
    set them: the expansion and the output change the cache alone. *)
Theorem getSuggestions_keeps_session_data
    (fuel : nat) s (input : TouchInput) (commitPoint : Z) (out out' : Output)
    (count : Z) (s' : Session)
    (Hreturns : Suggest.getSuggestions fuel s input commitPoint out
                = Some (count, out', s')) :
  sameSessionData
    (Suggest.initializeSearch
       (setupForGetSuggestions s input getMaxSpatialDistance
          getMaxPointerCount) commitPoint)
    s'.
Proof.
  unfold Suggest.getSuggestions in Hreturns.
  destruct (Suggest.searchLoop fuel (tiInputSize input) _) as [s2|] eqn:Hloop;
    [|discriminate].
  apply searchLoop_postcondition in Hloop as [_ Hloop].
  eapply sameSessionData_trans; [exact Hloop|].
  pose proof (outputSuggestions_sameSessionData s2 out) as H.
  assert (Hr : Suggest.outputSuggestions s2 out = (count, out', s'))
    by congruence.
  rewrite Hr in H. exact H.
Qed.

End DriverOutput.

(** ** The driver on concrete frontiers *)

Section PartialCommitScenario.

#[local] Existing Instance Scenario.partialCommitTraversal.
#[local] Existing Instance Scenario.autoCorrectingScoring.

(** C1: what the code does on a frontier whose best node is over the
    limit.  [expandCurrentDicNodes] returns at that node: the other node
    stays in the active frontier, neither popped nor expanded, and
    nothing reaches the terminal heap; the loop of the specification
    goes on, pops the other node and finds the word below it.  A call of
    [getSuggestions] that resumes at this frontier returns no
    suggestion. *)
Theorem expansion_stops_at_overlong_node :
  (forall fuel : nat,
      Suggest.expandCurrentDicNodes (S fuel) Scenario.mixedFrontierSession
      = Some (mkSession true 3 true false 0 0
                (Scenario.mkCache [Scenario.stemNode] [] []
                   [Scenario.overlongNode; Scenario.stemNode] 10 18 0 0)))
  /\ (exists word : Scenario.SimpleNode,
         Suggest.expandLoop_spec 2 false Scenario.mixedFrontierSession
         = Some (mkSession true 3 true false 0 0
                   (Scenario.mkCache [] [] [word]
                      [Scenario.overlongNode; Scenario.stemNode] 10 18 0 0))
         /\ Scenario.snId word = 104)
  /\ (forall fuel : nat,
         Suggest.getSuggestions (S (S fuel)) Scenario.resumedSession
           Scenario.threePoints 0 Scenario.emptyOutput
         = Some (0, Scenario.emptyOutput,
                 mkSession true 3 true false 0 0
                   (Scenario.mkCache [] [] []
                      [Scenario.overlongNode; Scenario.stemNode] 10 18 1 0))).
Proof.
  assert (Hexpand : forall fuel : nat,
      Suggest.expandCurrentDicNodes (S fuel) Scenario.mixedFrontierSession
      = Some (mkSession true 3 true false 0 0
                (Scenario.mkCache [Scenario.stemNode] [] []
                   [Scenario.overlongNode; Scenario.stemNode] 10 18 0 0))).
  { intros fuel. unfold Suggest.expandCurrentDicNodes.
    change (shouldDepthLevelCache Scenario.mixedFrontierSession) with false.
    cbv iota.
    rewrite (expandLoop_returns_at_limit fuel false
               Scenario.mixedFrontierSession);
      reflexivity. }
  split; [exact Hexpand|split].
  - eexists. split; vm_compute; reflexivity.
  - intros fuel. unfold Suggest.getSuggestions.
    assert (Hinit :
      Suggest.initializeSearch
        (setupForGetSuggestions Scenario.resumedSession Scenario.threePoints
           getMaxSpatialDistance getMaxPointerCount) 0
      = Scenario.mixedFrontierSession) by (vm_compute; reflexivity).
    rewrite Hinit.
    rewrite searchLoop_step by reflexivity.
    rewrite Hexpand.
    rewrite searchLoop_done by (vm_compute; discriminate).
    vm_compute. reflexivity.
Qed.

(** C2, as stated, fails for a valid word when the scoring policy
    auto-corrects valid words: the session is not partially committed and
    the input has 3 points, so the stated condition is false, and the
    third argument of [calculateFinalScore] is true. *)
Lemma force_argument_true_for_valid_word :
  let s := Scenario.mixedFrontierSession in
  let t := Scenario.wordNode 104 10 0 in
  let st :=
    Suggest.outputLoop s Binary32.one (-1) NOT_A_DOUBLE_LETTER 0 [t]
      Scenario.emitStart in
  map snd (Suggest.scoreCalls st) = [true]
  /\ (allowPartialCommit
      && (partiallyCommited s
          || ((16 <=? sessionInputSize s) && hasMultipleWords t))) = false.
Proof. vm_compute. split; reflexivity. Qed.

(** C4, as stated, fails when the traversal policy allows partial
    commit: with commit point 1 the search is continued alone, no commit
    point is set and the session is not marked partially committed. *)
Lemma commit_point_ignored_with_partial_commit :
  let s := Scenario.continuingSession in
  Suggest.initializeSearch s 1 = Suggest.onCache continueSearch s
  /\ partiallyCommited (Suggest.initializeSearch s 1) = false
  /\ Suggest.initializeSearch s 1
     <> Suggest.setPartiallyCommited
          (Suggest.onCache continueSearch
             (Suggest.setPrevWordPos
                (getPrevWordNodePos
                   (fst (setCommitPoint 1 (dicTraverseCache s))))
                (Suggest.onCache
                   (fun _ => snd (setCommitPoint 1 (dicTraverseCache s)))
                   s))).
Proof. vm_compute. repeat split; try reflexivity. discriminate. Qed.

(** C5, amended, at a node whose spatial distance is
    [MAX_VALUE_FOR_WEIGHTING], and at the child 105 of that node, which
    has the distance of the node. *)
Lemma weighted_child_at_max_is_dropped_witness :
  reachedMaxValueForWeighting Scenario.farNode = true
  /\ Suggest.processExpandedDicNode Scenario.idleSession Scenario.farNode
     = Scenario.idleSession
  /\ Suggest.processDicNodeAsMatch Scenario.idleSession
       (hd Scenario.farNode (getAllChildDicNodes Scenario.farNode))
     = Scenario.idleSession.
Proof.
  split; [vm_compute; reflexivity|].
  pose proof (weighted_child_at_max_is_dropped Scenario.idleSession
                Scenario.farNode Scenario.farNode) as (Hnode & _).
  pose proof (weighted_child_at_max_is_dropped Scenario.idleSession
                Scenario.farNode
                (hd Scenario.farNode (getAllChildDicNodes Scenario.farNode)))
    as (_ & Hchild & _).
  split.
  - apply Hnode. vm_compute. reflexivity.
  - apply Hchild. vm_compute. reflexivity.
Defined.

(** C8, as stated, fails once the output is full: at the end of a search
    whose terminal heap holds nine words with a shortcut each and, after
    them, the terminal 105 of probability 0 that has a shortcut,
    [outputSuggestions] pops the ten terminals, writes the nine words and
    their shortcuts, 18 entries, and stops: the score of 105 is not
    computed and its shortcut, the entry -105, is not in the output. *)
Lemma shortcuts_lost_when_output_is_full :
  let r :=
    Suggest.outputSuggestionsFull Scenario.crowdedSession
      Scenario.emptyOutput in
  let t := Scenario.wordNode 105 0 2 in
  last (snd (fst r)) = Some t
  /\ getProbability t = 0
  /\ Z.testbit (getFlags t) 1 = true
  /\ Suggest.outputWordIndex (fst (fst r)) = MAX_RESULTS
  /\ length (Suggest.scoreCalls (fst (fst r))) = 9%nat
  /\ existsb (Z.eqb (- 105)) (outWords (Suggest.emitted (fst (fst r))))
     = false.
Proof. vm_compute. repeat split; reflexivity. Qed.

(** C8, amended, at the terminal 105 alone: its shortcut is the only
    entry; and at the same terminal when 18 entries are written: nothing
    is emitted. *)
Lemma invalid_terminal_emits_shortcuts_only_witness :
  let t := Scenario.wordNode 105 0 2 in
  let st' :=
    Suggest.outputLoop Scenario.mixedFrontierSession Binary32.one (-1)
      NOT_A_DOUBLE_LETTER 0 [t] Scenario.emitStart in
  let full := Suggest.mkEmitState 18 1000 Scenario.emptyOutput [] in
  Suggest.isValidWord t = false
  /\ Suggest.outputWordIndex st' = 1
  /\ outputTypes (Suggest.emitted st') !! 0%nat = Some Scenario.KIND_SHORTCUT
  /\ outWords (Suggest.emitted st') !! 0%nat = Some (- 105)
  /\ Suggest.outputLoop Scenario.mixedFrontierSession Binary32.one (-1)
       NOT_A_DOUBLE_LETTER 0 [t] full = full.
Proof.
  intros t st' full.
  destruct (invalid_terminal_emits_shortcuts_only
              Scenario.mixedFrontierSession Binary32.one (-1)
              NOT_A_DOUBLE_LETTER 0 t [] Scenario.emitStart)
    as [Hv Hloop]; [left; reflexivity|].
  destruct (invalid_terminal_emits_shortcuts_only
              Scenario.mixedFrontierSession Binary32.one (-1)
              NOT_A_DOUBLE_LETTER 0 t [] full)
    as [_ Hfull]; [left; reflexivity|].
  split; [exact Hv|].
  unfold st'. rewrite Hloop, Hfull.
  vm_compute. repeat split; reflexivity.
Defined.



End PartialCommitScenario.

Section CorrectingScenario.

#[local] Existing Instance Scenario.correctingTraversal.
#[local] Existing Instance Scenario.autoCorrectingScoring.

(** C5, as stated, fails for the node that the expansion pops, under a
    policy that allows the error corrections: the compound distance of
    [farNode] has reached [MAX_VALUE_FOR_WEIGHTING], and
    [expandCurrentDicNodes] makes a next-word node from it (space
    substitution) and pushes the node itself (look-ahead correction) into
    the next-active heap; the next-word node has the distance of the
    node.  The child 105 of the node, which the match operator weights,
    is dropped. *)
Lemma popped_node_at_max_is_pushed :
  reachedMaxValueForWeighting Scenario.farNode = true
  /\ exists (nextWord : Scenario.SimpleNode)
       (s' : DicTraverseSession Scenario.ListCache),
       Suggest.expandCurrentDicNodes 1 Scenario.farFrontierSession = Some s'
       /\ Scenario.lcNextActive (dicTraverseCache s')
          = [nextWord; Scenario.farNode]
       /\ Scenario.lcTerminals (dicTraverseCache s') = []
       /\ getPrevWordNodePos nextWord = Scenario.snId Scenario.farNode
       /\ hasMultipleWords nextWord = true
       /\ reachedMaxValueForWeighting nextWord = true.
Proof.
  split; [vm_compute; reflexivity|].
  eexists; eexists. split; [vm_compute; reflexivity|].
  vm_compute. repeat split; reflexivity.
Qed.

End CorrectingScenario.

Section PlainScenario.

#[local] Existing Instance Scenario.plainTraversal.
#[local] Existing Instance Scenario.autoCorrectingScoring.

(** C4 without partial commit and with commit point 1: the commit point
    is set, the search continued and the session marked. *)
Lemma initializeSearch_continuous_witness :
  let s := Scenario.continuingSession in
  partiallyCommited (Suggest.initializeSearch s 1) = true
  /\ Suggest.initializeSearch s 0 = Suggest.onCache continueSearch s.
Proof.
  intros s. split.
  - rewrite (initializeSearch_continuous s 1);
      [vm_compute; reflexivity|reflexivity|reflexivity|reflexivity].
  - rewrite (initializeSearch_continuous s 0);
      [reflexivity|reflexivity|reflexivity|reflexivity].
Defined.

End PlainScenario.

(** ** The invariants of the driver on concrete frontiers *)

Section InvariantScenario.

#[local] Existing Instance Scenario.partialCommitTraversal.
#[local] Existing Instance Scenario.autoCorrectingScoring.

(** The list cache counts its pops and pushes as a heap does. *)
Lemma listCache_activeSize_laws :
  ActiveSizeLaws Scenario.SimpleNode Scenario.ListCache.
Proof.
  constructor.
  - intros [active next terminals continue capacity tcapacity i j].
    destruct active as [|n active]; simpl; lia.
  - intros n c. reflexivity.
  - intros n c. reflexivity.
  - intros n c. reflexivity.
  - intros c. reflexivity.
Qed.

Lemma search_loop_result_witness :
  let s' :=
    mkSession true 3 true false 0 0
      (Scenario.mkCache [] [] []
         [Scenario.overlongNode; Scenario.stemNode] 10 18 1 0) in
  Suggest.searchLoop 2 3 Scenario.mixedFrontierSession = Some s'
  /\ activeSize (dicTraverseCache s') <= 0
  /\ sameSessionData Scenario.mixedFrontierSession s'.
Proof.
  intros s'. split; [vm_compute; reflexivity|].
  apply (search_loop_result 2 3 Scenario.mixedFrontierSession s').
  vm_compute. reflexivity.
Defined.

Lemma expandCurrentDicNodes_terminates_witness :
  exists s' : DicTraverseSession Scenario.ListCache,
    (forall fuel : nat,
        (2 <= fuel)%nat ->
        Suggest.expandCurrentDicNodes fuel Scenario.mixedFrontierSession
        = Some s')
    /\ activeSize (dicTraverseCache s') <= 2
    /\ sameSessionData Scenario.mixedFrontierSession s'.
Proof.
  exact (@expandCurrentDicNodes_terminates _ _ _ _ _ _ _ _
           listCache_activeSize_laws Scenario.mixedFrontierSession).
Defined.

Lemma valid_terminal_is_written_witness :
  let t := Scenario.wordNode 104 10 0 in
  let st' :=
    Suggest.outputTerminal Scenario.mixedFrontierSession Binary32.one (-1)
      NOT_A_DOUBLE_LETTER 0 t Scenario.emitStart in
  Suggest.outputWordIndex st' = 1
  /\ frequencies (Suggest.emitted st') !! 0%nat = Some 1001000
  /\ outputTypes (Suggest.emitted st') !! 0%nat = Some KIND_CORRECTION
  /\ outWords (Suggest.emitted st') !! 0%nat = Some 104.
Proof.
  intros t st'.
  destruct (valid_terminal_is_written Scenario.mixedFrontierSession
              Binary32.one (-1) NOT_A_DOUBLE_LETTER 0 t Scenario.emitStart)
    as (written & Hout & Hf & Ht & Hw & _).
  - reflexivity.
  - vm_compute. lia.
  - vm_compute. lia.
  - fold st' in Hout.
    assert (Hst : (Suggest.outputWordIndex st', Suggest.emitted st')
                  = (1, written)).
    { rewrite Hout. reflexivity. }
    pose proof (f_equal fst Hst) as Hi. pose proof (f_equal snd Hst) as He.
    cbn [fst snd] in Hi, He. rewrite Hi, He.
    split; [reflexivity|]. split; [exact Hf|]. split; [exact Ht|].
    rewrite Hw. vm_compute. reflexivity.
Defined.

Lemma nan_distance_node_is_terminal_only_witness :
  let s' :=
    Suggest.processExpandedDicNode Scenario.mixedFrontierSession
      Scenario.nanNode in
  hasChildren Scenario.nanNode = true
  /\ length (Scenario.lcTerminals (dicTraverseCache s')) = 1%nat
  /\ Scenario.lcNextActive (dicTraverseCache s') = [].
Proof.
  intros s'. split; [reflexivity|].
  destruct (nan_distance_node_is_terminal_only Scenario.mixedFrontierSession
              Scenario.nanNode) as [H1 H2].
  - reflexivity.
  - unfold s'. rewrite H1, H2. split; reflexivity.
Defined.

Lemma getSuggestions_keeps_session_data_witness :
  let s' :=
    mkSession true 3 true false 0 0
      (Scenario.mkCache [] [] []
         [Scenario.overlongNode; Scenario.stemNode] 10 18 1 0) in
  Suggest.getSuggestions 2 Scenario.resumedSession Scenario.threePoints 0
    Scenario.emptyOutput
  = Some (0, Scenario.emptyOutput, s')
  /\ sameSessionData
       (Suggest.initializeSearch
          (setupForGetSuggestions Scenario.resumedSession
             Scenario.threePoints getMaxSpatialDistance getMaxPointerCount)
          0)
       s'.
Proof.
  intros s'.
  assert (H : Suggest.getSuggestions 2 Scenario.resumedSession
                Scenario.threePoints 0 Scenario.emptyOutput
              = Some (0, Scenario.emptyOutput, s'))
    by (vm_compute; reflexivity).
  split; [exact H|].
  exact (getSuggestions_keeps_session_data 2 Scenario.resumedSession
           Scenario.threePoints 0 Scenario.emptyOutput Scenario.emptyOutput
           0 s' H).
Defined.

End InvariantScenario.
